(** * hgcal-dev: the data-preparation pipeline of [hgcal_dev/datasets/hgcal.py]

    A shallow embedding of [HGCalDataset] and [HGCalDataModule]:
    fractional partitioning ([train_val_test_split]), noise sub-sampling
    ([make_noisy_data]), voxel quantisation ([_get_pc_feat_labels]) and the
    seed derivation of [setup].

    Numbers.  Python integers are unbounded and are modelled by [Z].  Python
    floats are modelled by exact rationals ([Q]); the binary64 rounding of
    [*] and [/] is not part of this model.  Where a result is evaluated on
    a concrete input, the input is chosen so that the floating-point
    computation is exact as well (dyadic fractions, small integers). *)

From Stdlib Require Import ZArith QArith Qround List Lia Bool Sorted Permutation.
From stdpp Require Import base option list strings gmap.
Import ListNotations.

Local Open Scope Z_scope.

(* ===================================================================== *)
(** ** Python and numpy primitives *)
(* ===================================================================== *)

Module Py.

(** [int(x)] on a float: truncation toward zero. *)
Definition int (x : Q) : Z := Z.quot (Qnum x) (Zpos (Qden x)).

(** [len(l)] as a Python integer. *)
Definition len {A} (l : list A) : Z := Z.of_nat (length l).

(** A slice bound is clamped as CPython's [PySlice_AdjustIndices] does: a
    negative bound counts from the end, and the result is clipped to
    [0 .. len].  Note that [-0] is [0]. *)
Definition adjust (n i : Z) : Z :=
  if i <? 0 then Z.max 0 (i + n) else Z.min i n.

(** [l[start:stop]] with unit step; [None] is an omitted bound. *)
Definition slice {A} (start stop : option Z) (l : list A) : list A :=
  let n := len l in
  let lo := match start with None => 0 | Some i => adjust n i end in
  let hi := match stop with None => n | Some i => adjust n i end in
  take (Z.to_nat (hi - lo)) (drop (Z.to_nat lo) l).

(** [l[i]]: a negative index counts from the end; out of range is
    [IndexError], here [None]. *)
Definition getitem {A} (l : list A) (i : Z) : option A :=
  let n := len l in
  let j := if i <? 0 then i + n else i in
  if (0 <=? j) && (j <? n) then l !! Z.to_nat j else None.

End Py.

(** The exceptions the modelled code can raise. *)
Inductive Exception : Type :=
| IndexError
| ValueError
| FileNotFoundError
| RuntimeError (msg : string).

Inductive Result (A : Type) : Type :=
| Ok (a : A)
| Raise (e : Exception).
Arguments Ok {A} a.
Arguments Raise {A} e.

(** [np.where(cond)[0]] on a one-dimensional array: the positions, in
    increasing order, at which the condition holds. *)
Fixpoint where_from {A} (p : A -> bool) (i : nat) (l : list A) : list nat :=
  match l with
  | [] => []
  | a :: l' =>
      if p a then i :: where_from p (S i) l' else where_from p (S i) l'
  end.

Definition np_where {A} (p : A -> bool) (l : list A) : list nat :=
  where_from p 0 l.

(** [a[idx]] with an integer index array: one row per index, in the order
    of [idx]; an index past the end is an [IndexError]. *)
Fixpoint np_take {A} (a : list A) (idx : list nat) : Result (list A) :=
  match idx with
  | [] => Ok []
  | i :: idx' =>
      match a !! i, np_take a idx' with
      | Some r, Ok rs => Ok (r :: rs)
      | None, _ => Raise IndexError
      | _, Raise e => Raise e
      end
  end.

(** [np.round]: to the nearest integer, a tie going to the even one. *)
Definition np_round (q : Q) : Z :=
  let f := Qfloor q in
  match Qcompare (q - inject_Z f) (1 # 2) with
  | Lt => f
  | Gt => f + 1
  | Eq => if Z.even f then f else f + 1
  end.

(** numpy's global legacy generator, as far as the pipeline uses it.
    [random_seed s] is the state [np.random.seed(s)] installs (it replaces
    the previous state; [s] is a 32-bit unsigned seed), and
    [random_randint high size st] is [randint(0, high, size)] run from
    [st]: the drawn positions and the state left behind.  Positions are
    drawn with replacement; all the interface promises is their number and
    their range. *)
Class NumpyRandom : Type := {
  RandomState : Type;
  random_seed : Z -> RandomState;
  random_randint : nat -> nat -> RandomState -> list nat * RandomState;
  randint_length : forall high size st,
    length (fst (random_randint high size st)) = size;
  randint_range : forall high size st,
    (0 < high)%nat ->
    Forall (fun i => (i < high)%nat) (fst (random_randint high size st))
}.

(* ===================================================================== *)
(** ** Events, datasets and the data module *)
(* ===================================================================== *)

(** One row of the feature block [x]: the three spatial columns and the
    remaining ones (time, energy, ...). *)
Record Hit : Type := mkHit {
  hit_x : Q;
  hit_y : Q;
  hit_z : Q;
  hit_aux : list Q
}.

(** An event file: the arrays stored under the keys ['x'] (N x F) and
    ['y'] (N x 2: semantic class, instance id). *)
Record Event : Type := mkEvent {
  ev_x : list Hit;
  ev_y : list (Z * Z)
}.

(** Both arrays have one row per hit. *)
Definition event_wf (ev : Event) : Prop :=
  length (ev_x ev) = length (ev_y ev).

(** A [.npz] file is addressed by its directory and its stem. *)
Definition Path : Type := string * string.

Definition path_stem (p : Path) : string := snd p.

(** [BaseDataset.__init__] stores its three arguments. *)
Record HGCalDataset : Type := mkDataset {
  ds_voxel_size : Q;
  ds_events : list Path;
  ds_task : string
}.

(** The fields of [HGCalDataModule] the modelled methods read or write. *)
Record HGCalDataModule : Type := mkDataModule {
  seed : option Z;
  num_epochs : Z;
  num_workers : Z;
  voxel_size : Q;
  task : string;
  event_frac : Q;
  train_frac : Q;
  test_frac : Q;
  raw_data_dir : string;
  noise_seed : Z;
  noise_level : Q;
  noisy_data_dir : string;
  _raw_events : option (list Path);
  _events : option (list Path);
  train_dataset : option HGCalDataset;
  val_dataset : option HGCalDataset;
  test_dataset : option HGCalDataset
}.

(** [_validate_fracs]: both assertions of the source, as a boolean. *)
Definition _validate_fracs (event_frac train_frac test_frac : Q) : bool :=
  forallb (fun f => Qle_bool 0 f && Qle_bool f 1)
          [event_frac; train_frac; test_frac]
  && Qle_bool (train_frac + test_frac) 1.

(** [train_val_test_split], statement by statement. *)
Definition train_val_test_split {A} (self : HGCalDataModule)
    (events : list A) : list A * list A * list A :=
  let num_events := Py.int (event_frac self * inject_Z (Py.len events)) in
  let events := Py.slice None (Some num_events) events in
  let num_train_events := Py.int (train_frac self * inject_Z num_events) in
  let num_test_events := Py.int (test_frac self * inject_Z num_events) in
  let num_val_events := num_events - num_train_events - num_test_events in
  let train_events := Py.slice None (Some num_train_events) events in
  let val_events :=
    Py.slice (Some num_train_events) (Some (- num_test_events)) events in
  let test_events := Py.slice (Some (- num_test_events)) None events in
  (train_events, val_events, test_events).

(** The partition as the specification words it: three slices with
    explicit non-negative bounds over the truncated list. *)
Definition spec_split {A} (event_frac train_frac test_frac : Q)
    (events : list A) : list A * list A * list A :=
  let n_events := Z.to_nat (Qfloor (event_frac * inject_Z (Py.len events))) in
  let events := take n_events events in
  let n_train :=
    Z.to_nat (Qfloor (train_frac * inject_Z (Z.of_nat n_events))) in
  let n_test :=
    Z.to_nat (Qfloor (test_frac * inject_Z (Z.of_nat n_events))) in
  (take n_train events,
   drop n_train (take (n_events - n_test)%nat events),
   drop (n_events - n_test)%nat (take n_events events)).

(* ===================================================================== *)
(** ** The state the methods run in *)
(* ===================================================================== *)

(** What [logging] receives. *)
Inductive LogRecord : Type :=
| LogInfo (msg : string)
| LogDebugSeed (s : Z).

Section Pipeline.

Context {G : NumpyRandom}.

(** The object [self] together with the part of the process and of the
    file system the methods touch: the [.npz] files, the paths [np.savez]
    was called on (oldest first), numpy's global generator, the log, the
    arguments [pl.seed_everything] was called with (oldest first), and the
    two ambient values [torch.initial_seed()] and [get_rank()]. *)
Record State : Type := mkState {
  self : HGCalDataModule;
  files : gmap Path Event;
  saved : list Path;
  np_random : RandomState;
  logged : list LogRecord;
  seeded : list Z;
  torch_initial_seed : Z;
  rank : Z
}.

Definition set_self (f : HGCalDataModule -> HGCalDataModule) (st : State)
    : State :=
  mkState (f (self st)) (files st) (saved st) (np_random st) (logged st)
          (seeded st) (torch_initial_seed st) (rank st).

Definition write_file (p : Path) (ev : Event) (st : State) : State :=
  mkState (self st) (<[p := ev]> (files st)) (saved st ++ [p])
          (np_random st) (logged st) (seeded st) (torch_initial_seed st)
          (rank st).

Definition set_np_random (r : RandomState) (st : State) : State :=
  mkState (self st) (files st) (saved st) r (logged st) (seeded st)
          (torch_initial_seed st) (rank st).

Definition add_log (r : LogRecord) (st : State) : State :=
  mkState (self st) (files st) (saved st) (np_random st) (logged st ++ [r])
          (seeded st) (torch_initial_seed st) (rank st).

Definition add_seeded (s : Z) (st : State) : State :=
  mkState (self st) (files st) (saved st) (np_random st) (logged st)
          (seeded st ++ [s]) (torch_initial_seed st) (rank st).

(** A method either returns or raises, and leaves a state behind in both
    cases. *)
Definition M (A : Type) : Type := State -> Result A * State.

Definition ret {A} (a : A) : M A := fun st => (Ok a, st).

Definition raise {A} (e : Exception) : M A := fun st => (Raise e, st).

Definition bind {A B} (m : M A) (k : A -> M B) : M B :=
  fun st =>
    match m st with
    | (Ok a, st') => k a st'
    | (Raise e, st') => (Raise e, st')
    end.

#[global] Instance M_ret : MRet M := @ret.
#[global] Instance M_bind : MBind M := fun A B k m => bind m k.

Definition get : M State := fun st => (Ok st, st).

Definition modify (f : State -> State) : M unit := fun st => (Ok tt, f st).

Definition lift {A} (r : Result A) : M A := fun st => (r, st).

(** [for x in l: body x]. *)
Fixpoint for_each {A} (l : list A) (body : A -> M unit) : M unit :=
  match l with
  | [] => ret tt
  | a :: l' => body a ;; for_each l' body
  end.

(** *** The collaborators *)

Definition logging_info (msg : string) : M unit :=
  modify (add_log (LogInfo msg)).

Definition np_load (p : Path) : M Event :=
  st ← get;
  match files st !! p with
  | Some ev => ret ev
  | None => raise FileNotFoundError
  end.

(** [np.savez(dir / stem, x=.., y=..)] creates or overwrites
    [dir/stem.npz]. *)
Definition np_savez (p : Path) (x : list Hit) (y : list (Z * Z)) : M unit :=
  modify (write_file p (mkEvent x y)).

Definition np_random_seed (s : Z) : M unit :=
  modify (set_np_random (random_seed s)).

(** [np.random.choice(a, size=size)] with the default [replace=True]:
    [size] positions are drawn by [randint(0, len(a), size)] and [a] is
    indexed with them. *)
Definition np_random_choice (a : list nat) (size : Z) : M (list nat) :=
  if size <? 0 then raise ValueError
  else if (length a =? 0)%nat && negb (size =? 0) then raise ValueError
  else
    st ← get;
    let '(idx, r) :=
      random_randint (length a) (Z.to_nat size) (np_random st) in
    modify (set_np_random r);;
    lift (np_take a idx).

(** [pl.seed_everything(s)]: recorded by its argument. *)
Definition pl_seed_everything (s : Z) : M unit :=
  modify (add_seeded s).

(** [sorted(dir.glob('*.npz'))]: the files of the directory by name. *)
Fixpoint insert_by_stem (p : Path) (l : list Path) : list Path :=
  match l with
  | [] => [p]
  | q :: l' =>
      if String.leb (path_stem p) (path_stem q) then p :: q :: l'
      else q :: insert_by_stem p l'
  end.

Definition sorted_glob (dir : string) (fs : gmap Path Event) : list Path :=
  foldr insert_by_stem []
    (List.filter (fun p : Path => String.eqb (fst p) dir)
                 (map fst (map_to_list fs))).

(** *** Assignments to the attributes of [self] *)

Definition with_seed (v : option Z) (s : HGCalDataModule) : HGCalDataModule :=
  mkDataModule v (num_epochs s) (num_workers s) (voxel_size s) (task s)
    (event_frac s) (train_frac s) (test_frac s) (raw_data_dir s)
    (noise_seed s) (noise_level s) (noisy_data_dir s) (_raw_events s)
    (_events s) (train_dataset s) (val_dataset s) (test_dataset s).

Definition with_raw_events (v : option (list Path)) (s : HGCalDataModule)
    : HGCalDataModule :=
  mkDataModule (seed s) (num_epochs s) (num_workers s) (voxel_size s) (task s)
    (event_frac s) (train_frac s) (test_frac s) (raw_data_dir s)
    (noise_seed s) (noise_level s) (noisy_data_dir s) v
    (_events s) (train_dataset s) (val_dataset s) (test_dataset s).

Definition with_events (v : option (list Path)) (s : HGCalDataModule)
    : HGCalDataModule :=
  mkDataModule (seed s) (num_epochs s) (num_workers s) (voxel_size s) (task s)
    (event_frac s) (train_frac s) (test_frac s) (raw_data_dir s)
    (noise_seed s) (noise_level s) (noisy_data_dir s) (_raw_events s)
    v (train_dataset s) (val_dataset s) (test_dataset s).

Definition with_fit_datasets (tr va : HGCalDataset) (s : HGCalDataModule)
    : HGCalDataModule :=
  mkDataModule (seed s) (num_epochs s) (num_workers s) (voxel_size s) (task s)
    (event_frac s) (train_frac s) (test_frac s) (raw_data_dir s)
    (noise_seed s) (noise_level s) (noisy_data_dir s) (_raw_events s)
    (_events s) (Some tr) (Some va) (test_dataset s).

Definition with_test_dataset (te : HGCalDataset) (s : HGCalDataModule)
    : HGCalDataModule :=
  mkDataModule (seed s) (num_epochs s) (num_workers s) (voxel_size s) (task s)
    (event_frac s) (train_frac s) (test_frac s) (raw_data_dir s)
    (noise_seed s) (noise_level s) (noisy_data_dir s) (_raw_events s)
    (_events s) (train_dataset s) (val_dataset s) (Some te).

(** *** [HGCalDataModule]: the cached listings *)

Definition raw_events : M (list Path) :=
  st ← get;
  match _raw_events (self st) with
  | Some l => ret l
  | None =>
      let l := sorted_glob (raw_data_dir (self st)) (files st) in
      modify (set_self (with_raw_events (Some l)));;
      ret l
  end.

Definition events : M (list Path) :=
  st ← get;
  match _events (self st) with
  | Some l => ret l
  | None =>
      let l := sorted_glob (noisy_data_dir (self st)) (files st) in
      modify (set_self (with_events (Some l)));;
      ret l
  end.

(** *** [HGCalDataModule.make_noisy_data] *)

Definition is_noise (row : Z * Z) : bool := fst row =? 0.

(** The loop body from the two [np.where] calls to the draw: the
    non-noise positions and the drawn noise positions. *)
Definition select_indices (y : list (Z * Z)) : M (list nat * list nat) :=
  let non_noise_indices := np_where (fun r => negb (is_noise r)) y in
  let noise_indices := np_where is_noise y in
  st ← get;
  np_random_seed (noise_seed (self st));;
  selected_noise_indices ←
    np_random_choice noise_indices
      (Py.int (inject_Z (Py.len noise_indices) * noise_level (self st)));
  ret (non_noise_indices, selected_noise_indices).

(** One iteration of the loop over [self.raw_events]. *)
Definition noisy_event (event_path : Path) : M unit :=
  event ← np_load event_path;
  let x := ev_x event in
  let y := ev_y event in
  sel ← select_indices y;
  let selected_indices := fst sel ++ snd sel in
  if 0 <? Py.len selected_indices then
    x_selected ← lift (np_take x selected_indices);
    y_selected ← lift (np_take y selected_indices);
    st ← get;
    let noisy_event_path :=
      (noisy_data_dir (self st), path_stem event_path) in
    np_savez noisy_event_path x_selected y_selected
  else ret tt.

Definition make_noisy_data : M unit :=
  st ← get;
  if Qeq_bool (noise_level (self st)) 1 then ret tt
  else
    logging_info ("Saving noisy data to " +:+ noisy_data_dir (self st) +:+ ".");;
    evs ← raw_events;
    for_each evs noisy_event.

(** *** [HGCalDataModule.setup] *)

Definition setup (stage : option string) : M unit :=
  st ← get;
  let base :=
    match seed (self st) with
    | None => torch_initial_seed st mod (2 ^ 32 - 1)
    | Some s => s
    end in
  let s' := base + rank st * num_workers (self st) * num_epochs (self st) in
  modify (set_self (with_seed (Some s')));;
  modify (add_log (LogDebugSeed s'));;
  pl_seed_everything s';;
  evs ← events;
  st ← get;
  let '(train_events, val_events, test_events) :=
    train_val_test_split (self st) evs in
  let mk := fun l => mkDataset (voxel_size (self st)) l (task (self st)) in
  (if bool_decide (stage = Some "fit" \/ stage = None) then
     modify (set_self (with_fit_datasets (mk train_events) (mk val_events)))
   else ret tt);;
  (if bool_decide (stage = Some "test" \/ stage = None) then
     modify (set_self (with_test_dataset (mk test_events)))
   else ret tt).

(** *** [HGCalDataset._get_pc_feat_labels] *)

(** What the loader returns as labels: the whole two-column array, or one
    of its columns. *)
Inductive Labels : Type :=
| LabelArray (rows : list (Z * Z))
| LabelColumn (col : list Z).

Definition dquote : string := String (Ascii.ascii_of_nat 34) EmptyString.

(** [a.min(0, keepdims=1)] on an N x 3 array; [None] when N = 0, where
    numpy raises [ValueError]. *)
Definition min3 (a b : Z * Z * Z) : Z * Z * Z :=
  let '(ax, ay, az) := a in
  let '(bx, by_, bz) := b in
  (Z.min ax bx, Z.min ay by_, Z.min az bz).

Definition amin0 (a : list (Z * Z * Z)) : option (Z * Z * Z) :=
  match a with
  | [] => None
  | c :: cs => Some (fold_left min3 cs c)
  end.

Definition sub3 (m a : Z * Z * Z) : Z * Z * Z :=
  let '(ax, ay, az) := a in
  let '(mx, my, mz) := m in
  (ax - mx, ay - my, az - mz).

(** [np.round(block[:, :3] / voxel_size)]. *)
Definition quantize (voxel : Q) (block : list Hit) : list (Z * Z * Z) :=
  map (fun h => (np_round (hit_x h / voxel),
                 np_round (hit_y h / voxel),
                 np_round (hit_z h / voxel))) block.

Definition _get_pc_feat_labels (this : HGCalDataset) (index : Z)
    : M (list (Z * Z * Z) * list Hit * Labels) :=
  event_path ←
    match Py.getitem (ds_events this) index with
    | Some p => ret p
    | None => raise IndexError
    end;
  event ← np_load event_path;
  bl ←
    (if String.eqb (ds_task this) "panoptic" then
       ret (ev_x event, LabelArray (ev_y event))
     else if String.eqb (ds_task this) "semantic" then
       ret (ev_x event, LabelColumn (map fst (ev_y event)))
     else if String.eqb (ds_task this) "instance" then
       ret (ev_x event, LabelColumn (map snd (ev_y event)))
     else
       raise (RuntimeError
                ("Unknown task = " +:+ dquote +:+ ds_task this +:+ dquote)));
  let block := fst bl in
  let labels_ := snd bl in
  let pc_ := quantize (ds_voxel_size this) block in
  match amin0 pc_ with
  | None => raise ValueError
  | Some m =>
      let pc_ := map (sub3 m) pc_ in
      let feat_ := block in
      ret (pc_, feat_, labels_)
  end.

(** *** Notions the statements below use *)

(** The number of noise draws: [int(noise_indices.shape[0] * noise_level)]. *)
Definition draw_size (level : Q) (n : nat) : Z :=
  Py.int (inject_Z (Z.of_nat n) * level).

(** The positions drawn for an event with [n] noise hits: a function of
    the noise seed, the noise level and [n] alone. *)
Definition drawn_positions (nseed : Z) (level : Q) (n : nat) : list nat :=
  fst (random_randint n (Z.to_nat (draw_size level n)) (random_seed nseed)).

(** A computation that assigns to no attribute of [self]. *)
Definition keeps_self {A} (m : M A) : Prop :=
  forall st, self (snd (m st)) = self st.

(** The task names the loader recognises. *)
Definition valid_task (t : string) : Prop :=
  t = "panoptic" \/ t = "semantic" \/ t = "instance".

(** The labels the task selects. *)
Definition task_labels (t : string) (y : list (Z * Z)) : Labels :=
  if String.eqb t "panoptic" then LabelArray y
  else if String.eqb t "semantic" then LabelColumn (map fst y)
  else LabelColumn (map snd y).

(** The base seed [setup] starts from. *)
Definition base_seed (st : State) : Z :=
  match seed (self st) with
  | None => torch_initial_seed st mod (2 ^ 32 - 1)
  | Some s => s
  end.

Definition rank_offset (st : State) : Z :=
  rank st * num_workers (self st) * num_epochs (self st).

End Pipeline.

(* ===================================================================== *)
(** ** numpy's legacy generator: MT19937 with masked rejection *)
(* ===================================================================== *)

(** The generator behind [np.random.seed] and [np.random.randint] of the
    legacy [RandomState]: the Mersenne Twister seeded by [init_genrand],
    and bounded integers drawn by masking 32-bit outputs and rejecting
    those above the range. *)
Module MT19937.

Definition mask32 : Z := 4294967295.
Definition upper_mask : Z := 2147483648.
Definition lower_mask : Z := 2147483647.
Definition matrix_a : Z := 2567483615.

Record state : Type := mkMT { key : list Z; pos : nat }.

Fixpoint init_from (prev i : Z) (k : nat) : list Z :=
  match k with
  | O => []
  | S k' =>
      let v :=
        Z.land (1812433253 * Z.lxor prev (Z.shiftr prev 30) + i) mask32 in
      v :: init_from v (i + 1) k'
  end.

(** [init_genrand(s)]; the position past the end forces a regeneration
    before the first output. *)
Definition init_genrand (s : Z) : state :=
  let k0 := Z.land s mask32 in
  mkMT (k0 :: init_from k0 1 623) 624.

Definition word (mt : list Z) (k : nat) : Z := nth (k mod 624) mt 0.

Definition twist_word (mt : list Z) (k : nat) : Z :=
  let y := Z.lor (Z.land (word mt k) upper_mask)
                 (Z.land (word mt (k + 1)) lower_mask) in
  Z.lxor (Z.lxor (word mt (k + 397)) (Z.shiftr y 1))
         (if Z.odd y then matrix_a else 0).

(** The in-place regeneration of all 624 words. *)
Definition regenerate (mt : list Z) : list Z :=
  fold_left (fun mt k => <[k := twist_word mt k]> mt) (seq 0 624) mt.

Definition temper (y : Z) : Z :=
  let y := Z.lxor y (Z.shiftr y 11) in
  let y := Z.lxor y (Z.land (Z.shiftl y 7) 2636928640) in
  let y := Z.lxor y (Z.land (Z.shiftl y 15) 4022730752) in
  Z.lxor y (Z.shiftr y 18).

Definition genrand_uint32 (st : state) : Z * state :=
  let st := if (624 <=? pos st)%nat then mkMT (regenerate (key st)) 0 else st in
  (temper (nth (pos st) (key st) 0), mkMT (key st) (S (pos st))).

(** The next [n] outputs. *)
Fixpoint outputs (n : nat) (st : state) : list Z :=
  match n with
  | O => []
  | S k => let '(v, st') := genrand_uint32 st in v :: outputs k st'
  end.

(** The smallest mask of the form [2^k - 1] covering [rng]. *)
Definition gen_mask (rng : Z) : Z :=
  let m := Z.lor rng (Z.shiftr rng 1) in
  let m := Z.lor m (Z.shiftr m 2) in
  let m := Z.lor m (Z.shiftr m 4) in
  let m := Z.lor m (Z.shiftr m 8) in
  let m := Z.lor m (Z.shiftr m 16) in
  Z.lor m (Z.shiftr m 32).

(** The bounded-integer layer sees the generator through its
    [next_uint32] only, as numpy's [bitgen_t] has it. *)
Section Bounded.

Variable bitgen : Type.
Variable next_uint32 : bitgen -> Z * bitgen.

(** [while ((val = next_uint32() & mask) > rng);] with the number of
    iterations bounded by [fuel]. *)
Fixpoint bounded_masked (fuel : nat) (rng mask : Z) (st : bitgen)
    : option (Z * bitgen) :=
  match fuel with
  | O => None
  | S f =>
      let '(v, st') := next_uint32 st in
      let val := Z.land v mask in
      if val <=? rng then Some (val, st') else bounded_masked f rng mask st'
  end.

(** One bounded draw.  numpy loops until a value is accepted; the model
    stops after [fuel] rejections in a row and then yields 0. *)
Definition bounded_draw (fuel : nat) (rng mask : Z) (st : bitgen)
    : Z * bitgen :=
  match bounded_masked fuel rng mask st with
  | Some r => r
  | None => (0, st)
  end.

Fixpoint draws (fuel : nat) (rng mask : Z) (size : nat) (st : bitgen)
    : list nat * bitgen :=
  match size with
  | O => ([], st)
  | S k =>
      let '(v, st1) := bounded_draw fuel rng mask st in
      let '(vs, st2) := draws fuel rng mask k st1 in
      (Z.to_nat v :: vs, st2)
  end.

End Bounded.

Definition reject_fuel : nat := 4096.

(** [randint(0, high, size)]: a range of one value consumes no output. *)
Definition randint (high size : nat) (st : state) : list nat * state :=
  let rng := Z.of_nat high - 1 in
  if rng <=? 0 then (repeat 0%nat size, st)
  else draws state genrand_uint32 reject_fuel rng (gen_mask rng) size st.

End MT19937.

#[export] Instance mt19937 : NumpyRandom.
Proof.
  refine {| RandomState := MT19937.state;
            random_seed := MT19937.init_genrand;
            random_randint := MT19937.randint |}.
  - intros high size st. unfold MT19937.randint.
    destruct (Z.of_nat high - 1 <=? 0).
    + cbn [fst]. apply repeat_length.
    + generalize (Z.of_nat high - 1) (MT19937.gen_mask (Z.of_nat high - 1))
                 MT19937.reject_fuel MT19937.genrand_uint32.
      intros rng mask fuel next. revert st.
      induction size as [|k IH]; intros st; cbn [MT19937.draws];
        [reflexivity|].
      destruct (MT19937.bounded_draw _ next fuel rng mask st) as [v st1].
      specialize (IH st1).
      destruct (MT19937.draws _ next fuel rng mask k st1) as [vs st2].
      cbn [fst length] in *. congruence.
  - intros high size st Hhigh. unfold MT19937.randint.
    destruct (Z.of_nat high - 1 <=? 0) eqn:Hrng.
    + cbn [fst].
      induction size as [|k IH]; cbn [repeat]; constructor; [lia | exact IH].
    + apply Z.leb_gt in Hrng.
      generalize (MT19937.gen_mask (Z.of_nat high - 1)) MT19937.reject_fuel
                 MT19937.genrand_uint32.
      intros mask fuel next.
      assert (Hb : forall fuel rng mask s v s',
                 MT19937.bounded_masked _ next fuel rng mask s = Some (v, s')
                 -> v <= rng).
      { clear. induction fuel as [|f IHf]; intros rng mask s v s' H;
          cbn [MT19937.bounded_masked] in H.
        - discriminate.
        - destruct (next s) as [u s1].
          destruct (Z.land u mask <=? rng) eqn:Hle.
          + apply Z.leb_le in Hle. inversion H; subst. exact Hle.
          + eauto. }
      assert (Hd : forall fuel rng mask s, 0 <= rng ->
                 fst (MT19937.bounded_draw _ next fuel rng mask s) <= rng).
      { intros fuel' rng mask' s Hr. unfold MT19937.bounded_draw.
        destruct (MT19937.bounded_masked _ next fuel' rng mask' s)
          as [[v s']|] eqn:E.
        - cbn [fst]. eauto.
        - cbn [fst]. lia. }
      revert st. induction size as [|k IH]; intros st; cbn [MT19937.draws].
      * constructor.
      * specialize (Hd fuel (Z.of_nat high - 1) mask st).
        destruct (MT19937.bounded_draw _ next fuel _ mask st) as [v st1].
        specialize (IH st1).
        destruct (MT19937.draws _ next fuel _ mask k st1) as [vs st2].
        cbn [fst] in *. constructor; [lia | exact IH].
Defined.

(** A data module under the root directory [data] with the given
    fractions, noise level and noise seed, as the constructor leaves it;
    [noisy_name] is the directory name the constructor formats from the
    noise level. *)
Definition example_module (event_frac train_frac test_frac : Q)
    (noise_level : Q) (noisy_name : string) (noise_seed : Z)
    : HGCalDataModule :=
  mkDataModule None 1 1 10 "semantic" event_frac train_frac test_frac
    "data/1.0_noise" noise_seed noise_level ("data/" +:+ noisy_name)
    None None None None None.

(** A process in which nothing has been logged, saved or seeded yet. *)
Definition example_state {G : NumpyRandom} (self : HGCalDataModule)
    (files : gmap Path Event) (rank : Z) : State :=
  mkState self files [] (random_seed 0) [] [] 1234567 rank.

(** *** A concrete raw event

    One raw event with twelve hits: a non-noise hit, ten noise hits and
    another non-noise hit; noise level 0.5 and the default noise seed 31. *)

Definition example_labels : list (Z * Z) :=
  (1, 1) :: repeat (0, 0) 10 ++ [(2, 1)].

Definition example_event : Event :=
  mkEvent (map (fun i => mkHit (inject_Z (Z.of_nat i)) 0 0 [1%Q]) (seq 0 12))
          example_labels.

Definition example_raw_path : Path := ("data/1.0_noise", "event_0").

Definition noisy_state : @State mt19937 :=
  example_state (example_module 1 (4 # 5) (1 # 10) (1 # 2) "0.5_noise" 31)
                {[ example_raw_path := example_event ]} 0.

(** The same process after another event has gone through the loop. *)
Definition later_state : @State mt19937 :=
  snd (noisy_event example_raw_path noisy_state).

(** A module built with noise_level = 1.0. *)
Definition raw_state : @State mt19937 :=
  example_state (example_module 1 (4 # 5) (1 # 10) 1 "1.0_noise" 31)
                {[ example_raw_path := example_event ]} 0.

(** *** Concrete events for the loader *)

Definition voxel_event : Event :=
  mkEvent [mkHit 5 5 5 [1%Q]; mkHit 15 25 5 [2%Q]] [(1, 1); (0, 0)].

Definition voxel_path : Path := ("data/1.0_noise", "event_0").

Definition empty_path : Path := ("data/1.0_noise", "event_1").

(** With noise_level = 1.0 the events are read from the raw directory:
    here one event of two hits and one event without hits. *)
Definition loader_state : @State mt19937 :=
  example_state (example_module 1 (4 # 5) (1 # 10) 1 "1.0_noise" 31)
    (<[voxel_path := voxel_event]> {[ empty_path := mkEvent [] [] ]}) 0.

(** *** Concrete processes for [setup] *)

(** A module with the given seed, worker count and epoch count. *)
Definition seeded_module (s : option Z) (nw ne : Z) : HGCalDataModule :=
  mkDataModule s ne nw 10 "semantic" 1 (4 # 5) (1 # 10)
    "data/1.0_noise" 31 1 "data/1.0_noise" None None None None None.

Definition rank_state (m : HGCalDataModule) (r : Z) : @State mt19937 :=
  example_state m {[ example_raw_path := example_event ]} r.

(* ===================================================================== *)
(** ** Further methods and the notions their properties use *)
(* ===================================================================== *)


Section DataLoaders.

Context {G : NumpyRandom}.

(** The seeds [np.random.seed] accepts. *)
Definition valid_seed (s : Z) : Prop := 0 <= s <= 2 ^ 32 - 1.

(** How a call of the worker initialiser ends: the generator is seeded,
    or [self.seed + worker_id] raises a TypeError because no seed is set,
    or [np.random.seed] raises a ValueError because the sum is not a seed
    it accepts. *)
Inductive WorkerInit : Type :=
| WorkerSeeded (st : State)
| WorkerTypeError
| WorkerValueError.

(** [self.seed + worker_id], read when a worker calls the initialiser. *)
Definition worker_seed (worker_id : Z) (st : State) : option Z :=
  match seed (self st) with
  | None => None
  | Some s => Some (s + worker_id)
  end.

(** The function [dataloader] passes as [worker_init_fn]:
    [lambda worker_id: np.random.seed(self.seed + worker_id)]. *)
Definition worker_init_fn (worker_id : Z) (st : State) : WorkerInit :=
  match worker_seed worker_id st with
  | None => WorkerTypeError
  | Some s =>
      if (0 <=? s) && (s <=? 2 ^ 32 - 1)
      then WorkerSeeded (set_np_random (random_seed s) st)
      else WorkerValueError
  end.






End DataLoaders.

Section NoiseLoop.

Context {G : NumpyRandom}.

(** What the loop body saves for a raw event, as a function of the noise
    seed, the noise level and the event: the rows of the non-noise hits,
    in order, followed by the rows at the drawn noise indices; [None]
    when nothing is selected. *)
Definition subsample (nseed : Z) (level : Q) (ev : Event) : option Event :=
  let noise := np_where is_noise (ev_y ev) in
  let non_noise := np_where (fun r => negb (is_noise r)) (ev_y ev) in
  match np_take noise (drawn_positions nseed level (length noise)) with
  | Ok sel =>
      match non_noise ++ sel with
      | [] => None
      | i :: rest =>
          match np_take (ev_x ev) (i :: rest),
                np_take (ev_y ev) (i :: rest) with
          | Ok xs, Ok ys => Some (mkEvent xs ys)
          | _, _ => None
          end
      end
  | Raise _ => None
  end.

(** Where the sub-sampled event of a raw path goes. *)
Definition noisy_target (m : HGCalDataModule) (p : Path) : Path :=
  (noisy_data_dir m, path_stem p).

(** The effect of one loop iteration on the files. *)
Definition filter_step (m : HGCalDataModule) (fs : gmap Path Event)
    (p : Path) : gmap Path Event :=
  match fs !! p with
  | Some ev =>
      match subsample (noise_seed m) (noise_level m) ev with
      | Some ev' => <[noisy_target m p := ev']> fs
      | None => fs
      end
  | None => fs
  end.

(** The writes a pass over the listing makes, read off a fixed set of
    files, and a sequence of writes applied to a set of files. *)
Definition writes_of (m : HGCalDataModule) (fs : gmap Path Event)
    (l : list Path) : list (Path * Event) :=
  omap (fun p =>
          match fs !! p with
          | Some ev =>
              match subsample (noise_seed m) (noise_level m) ev with
              | Some ev' => Some (noisy_target m p, ev')
              | None => None
              end
          | None => None
          end) l.

Definition apply_writes (w : list (Path * Event)) (fs : gmap Path Event)
    : gmap Path Event :=
  fold_left (fun fs kv => <[fst kv := snd kv]> fs) w fs.

(** The last write a sequence makes to a path, if any. *)
Fixpoint last_write (k : Path) (w : list (Path * Event)) : option Event :=
  match w with
  | [] => None
  | kv :: w' =>
      match last_write k w' with
      | Some ev => Some ev
      | None => if decide (fst kv = k) then Some (snd kv) else None
      end
  end.

(** The raw events a pass can process: existing, well-formed event files
    outside the noisy directory. *)
Definition processable (m : HGCalDataModule) (fs : gmap Path Event)
    (p : Path) : Prop :=
  fst p <> noisy_data_dir m /\ exists ev, fs !! p = Some ev /\ event_wf ev.

(** What a computation may do to the files at most: write into the noisy
    directory of [self].  Files elsewhere keep their content, no file
    disappears, every save goes to the noisy directory, and the noisy
    directory stays the same. *)
Definition writes_noisy_only (st st' : State) : Prop :=
  noisy_data_dir (self st') = noisy_data_dir (self st)
  /\ (forall q, fst q <> noisy_data_dir (self st) ->
                files st' !! q = files st !! q)
  /\ (forall q, is_Some (files st !! q) -> is_Some (files st' !! q))
  /\ exists w, saved st' = saved st ++ w
               /\ Forall (fun q => fst q = noisy_data_dir (self st)) w.

Definition respects (R : State -> State -> Prop) {A} (m : M A) : Prop :=
  forall st, R st (snd (m st)).

(** The raw listing a pass iterates over: the cached one, or the sorted
    raw directory on first use. *)
Definition raw_listing (st : State) : list Path :=
  match _raw_events (self st) with
  | Some l => l
  | None => sorted_glob (raw_data_dir (self st)) (files st)
  end.

End NoiseLoop.

Section Acquisition.

Context {G : NumpyRandom}.

(** The process together with what [prepare_data] consults besides it:
    the constructor's [download] flag and root directory, whether
    [data_dir/data.tar.gz] exists, which directories hold entries that
    are not event files, and the messages logged as errors. *)
Record Site : Type := mkSite {
  proc : State;
  _download : bool;
  data_dir : string;
  archive_exists : bool;
  other_entries : string -> bool;
  errors : list string
}.

Definition set_proc (st : State) (s : Site) : Site :=
  mkSite st (_download s) (data_dir s) (archive_exists s) (other_entries s)
         (errors s).

Definition add_error (msg : string) (s : Site) : Site :=
  mkSite (proc s) (_download s) (data_dir s) (archive_exists s)
         (other_entries s) (errors s ++ [msg]).

Definition site_info (msg : string) (s : Site) : Site :=
  set_proc (add_log (LogInfo msg) (proc s)) s.

(** A method of the data module run at a site. *)
Definition at_site {A} (m : M A) (s : Site) : Result A * Site :=
  let '(r, st') := m (proc s) in (r, set_proc st' s).

(** [len(set(dir.glob('*'))) != 0]: the directory has an entry, an event
    file or another one. *)
Definition dir_not_empty (dir : string) (s : Site) : bool :=
  other_entries s dir
  || match sorted_glob dir (files (proc s)) with
     | [] => false
     | _ :: _ => true
     end.

Definition is_downloaded (s : Site) : bool := archive_exists s.

Definition is_extracted (s : Site) : bool :=
  dir_not_empty (raw_data_dir (self (proc s))) s.

Definition noisy_data_exists (s : Site) : bool :=
  dir_not_empty (noisy_data_dir (self (proc s))) s.

(** The transfer and the unpacking are collaborators of [prepare_data]:
    HTTP and tar are outside this model. *)
Variable download : Site -> Result unit * Site.
Variable extract : Site -> Result unit * Site.

Definition then_ (a b : Site -> Result unit * Site) (s : Site)
    : Result unit * Site :=
  match a s with
  | (Ok _, s') => b s'
  | (Raise e, s') => (Raise e, s')
  end.

Definition prepare_data (s : Site) : Result unit * Site :=
  if negb (noisy_data_exists s) then
    let s := site_info ("Noisy dataset not found at "
                        +:+ noisy_data_dir (self (proc s)) +:+ ".") s in
    then_
      (fun s =>
         if negb (is_extracted s) then
           let s := site_info ("Raw dataset not found at "
                               +:+ raw_data_dir (self (proc s)) +:+ ".") s in
           then_
             (fun s =>
                if negb (is_downloaded s) then
                  let s := site_info ("Downloaded dataset not found at "
                                      +:+ data_dir s +:+ "/data.tar.gz.") s in
                  if _download s then download s
                  else (Raise (RuntimeError ""),
                        add_error "download=false, aborting!" s)
                else (Ok tt, s))
             extract s
         else (Ok tt, s))
      (at_site make_noisy_data) s
  else (Ok tt, s).

End Acquisition.

(** Sites for the concrete processes: downloading disabled, no archive,
    no entries besides event files; and a transfer and an unpacking that
    do nothing. *)
Definition example_site (st : @State mt19937) : Site :=
  mkSite st false "data" false (fun _ => false) [].

Definition idle : @Site mt19937 -> Result unit * @Site mt19937 :=
  fun s => (Ok tt, s).

(** A process whose cached raw listing names a file that is gone. *)
Definition stale_state : @State mt19937 :=
  example_state
    (with_raw_events
       (Some [example_raw_path; ("data/1.0_noise", "event_9")])
       (example_module 1 (4 # 5) (1 # 10) (1 # 2) "0.5_noise" 31))
    {[ example_raw_path := example_event ]} 0.

(** A voxel index with no negative component. *)
Definition nonneg3 (c : Z * Z * Z) : Prop :=
  let '(cx, cy, cz) := c in 0 <= cx /\ 0 <= cy /\ 0 <= cz.

(** Component-wise order on voxel indices. *)
Definition le3 (a b : Z * Z * Z) : Prop :=
  let '(ax, ay, az) := a in
  let '(bx, by_, bz) := b in
  ax <= bx /\ ay <= by_ /\ az <= bz.

(* ===================================================================== *)
(** ** Known outputs of the generator *)
(* ===================================================================== *)

(** The first 32-bit output of MT19937 for the reference seed 5489. *)
Example mt19937_reference_output :
  fst (MT19937.genrand_uint32 (MT19937.init_genrand 5489)) = 3499211612.
Proof. vm_compute. reflexivity. Qed.

(** [np.random.seed(0); np.random.randint(10, size=10)]. *)
Example randint_seed_0 :
  fst (MT19937.randint 10 10 (MT19937.init_genrand 0))
  = [5; 0; 3; 3; 7; 9; 3; 5; 2; 4]%nat.
Proof. vm_compute. reflexivity. Qed.

(** [np.random.seed(42); np.random.randint(100, size=10)]. *)
Example randint_seed_42 :
  fst (MT19937.randint 100 10 (MT19937.init_genrand 42))
  = [51; 92; 14; 71; 60; 20; 82; 86; 74; 74]%nat.
Proof. vm_compute. reflexivity. Qed.

(** [np.random.seed(31); np.random.randint(10, size=5)]: the first six
    outputs masked with 15 are 2, 7, 0, 14, 2, 7, and the 14 is rejected. *)
Example randint_seed_31 :
  MT19937.outputs 6 (MT19937.init_genrand 31)
  = [1228591826; 124517975; 4115032080; 1384409982; 3308468834; 2626096791]
  /\ map (fun v => Z.land v (MT19937.gen_mask 9))
         (MT19937.outputs 6 (MT19937.init_genrand 31))
     = [2; 7; 0; 14; 2; 7]
  /\ fst (MT19937.randint 10 5 (MT19937.init_genrand 31))
     = [2; 7; 0; 2; 7]%nat.
Proof. vm_compute. repeat split. Qed.

(* ===================================================================== *)
(** ** Arithmetic of [int(frac * n)] *)
(* ===================================================================== *)

Lemma int_floor (q : Q) : (0 <= q)%Q -> Py.int q = Qfloor q.
Proof.
  destruct q as [n d]. unfold Qle, Py.int, Qfloor. simpl. intros H.
  apply Z.quot_div_nonneg; lia.
Qed.

Lemma frac_scale_nonneg (f : Q) (n : Z) :
  (0 <= f)%Q -> 0 <= n -> (0 <= f * inject_Z n)%Q.
Proof.
  intros Hf Hn. apply Qmult_le_0_compat; [exact Hf|].
  unfold Qle. simpl. lia.
Qed.




(* ===================================================================== *)
(** ** Slices *)
(* ===================================================================== *)






(* ===================================================================== *)
(** ** The partitioner *)
(* ===================================================================== *)

Section Partitioner.

Context {A : Type}.
Variable self : HGCalDataModule.
Variable events : list A.
Hypothesis valid :
  _validate_fracs (event_frac self) (train_frac self) (test_frac self) = true.

Let num_events := Py.int (event_frac self * inject_Z (Py.len events)).
Let num_train_events := Py.int (train_frac self * inject_Z num_events).
Let num_test_events := Py.int (test_frac self * inject_Z num_events).






End Partitioner.

(* ===================================================================== *)
(** ** numpy indexing *)
(* ===================================================================== *)

Lemma where_from_spec {A} (p : A -> bool) (l : list A) (i j : nat) :
  In j (where_from p i l)
  <-> (i <= j)%nat /\ exists a, l !! (j - i)%nat = Some a /\ p a = true.
Proof.
  revert i. induction l as [|a l IH]; intros i; simpl.
  - split; [tauto|]. intros (_ & b & Hb & _). discriminate.
  - assert (Htail : In j (where_from p (S i) l)
                    <-> (i < j)%nat
                        /\ exists b, l !! (j - S i)%nat = Some b /\ p b = true).
    { rewrite IH. split; intros (H1 & H2); (split; [lia | exact H2]). }
    destruct (p a) eqn:Hp; simpl; rewrite Htail; split.
    + intros [<- | (Hlt & b & Hb & Hpb)].
      * split; [lia|]. exists a. rewrite Nat.sub_diag. auto.
      * split; [lia|]. exists b. split; [|exact Hpb].
        replace (j - i)%nat with (S (j - S i)) by lia. exact Hb.
    + intros (Hle & b & Hb & Hpb).
      destruct (decide (i = j)) as [->|Hne]; [left; reflexivity|right].
      split; [lia|]. exists b. split; [|exact Hpb].
      replace (j - i)%nat with (S (j - S i)) in Hb by lia. exact Hb.
    + intros (Hlt & b & Hb & Hpb).
      split; [lia|]. exists b. split; [|exact Hpb].
      replace (j - i)%nat with (S (j - S i)) by lia. exact Hb.
    + intros (Hle & b & Hb & Hpb).
      destruct (decide (i = j)) as [->|Hne].
      * rewrite Nat.sub_diag in Hb. simpl in Hb. congruence.
      * split; [lia|]. exists b. split; [|exact Hpb].
        replace (j - i)%nat with (S (j - S i)) in Hb by lia. exact Hb.
Qed.

(** [np.where] lists exactly the positions at which the condition holds. *)
Lemma np_where_spec {A} (p : A -> bool) (l : list A) (j : nat) :
  In j (np_where p l) <-> exists a, l !! j = Some a /\ p a = true.
Proof.
  unfold np_where. rewrite where_from_spec, Nat.sub_0_r.
  split; [tauto|]. intros H. split; [lia | exact H].
Qed.

Lemma np_where_lt {A} (p : A -> bool) (l : list A) :
  Forall (fun j => (j < length l)%nat) (np_where p l).
Proof.
  apply List.Forall_forall. intros j Hj.
  apply np_where_spec in Hj as (a & Ha & _).
  apply lookup_lt_Some in Ha. exact Ha.
Qed.

Lemma where_from_NoDup {A} (p : A -> bool) (l : list A) (i : nat) :
  List.NoDup (where_from p i l).
Proof.
  revert i. induction l as [|a l IH]; intros i; simpl.
  - constructor.
  - destruct (p a); [|apply IH].
    constructor; [|apply IH].
    rewrite where_from_spec. lia.
Qed.

(** Indexing with positions that are all in range succeeds and yields,
    position by position, the rows they name. *)
Lemma np_take_ok {A} (a : list A) (idx : list nat) :
  Forall (fun i => (i < length a)%nat) idx ->
  exists rs, np_take a idx = Ok rs
             /\ Forall2 (fun i r => a !! i = Some r) idx rs.
Proof.
  induction 1 as [|i idx Hi _ IH]; simpl.
  - exists []. split; [reflexivity | constructor].
  - destruct IH as (rs & -> & Hrs).
    apply lookup_lt_is_Some_2 in Hi as [r Hr]. rewrite Hr.
    exists (r :: rs). split; [reflexivity | constructor; assumption].
Qed.


Lemma np_take_In {A} (a : list A) (idx : list nat) (rs : list A) :
  np_take a idx = Ok rs -> Forall (fun r => In r a) rs.
Proof.
  revert rs. induction idx as [|i idx IH]; simpl; intros rs H.
  - inversion H. constructor.
  - destruct (a !! i) as [r|] eqn:Hr; [|discriminate].
    destruct (np_take a idx) as [rs'|]; [|discriminate].
    inversion H. constructor; [|apply IH; reflexivity].
    apply list_elem_of_In. eapply list_elem_of_lookup_2. exact Hr.
Qed.

(* ===================================================================== *)
(** ** The noise sampler *)
(* ===================================================================== *)

Section NoiseSampler.

Context {G : NumpyRandom}.

Lemma draw_size_floor (level : Q) (n : nat) :
  (0 <= level)%Q ->
  draw_size level n = Qfloor (level * inject_Z (Z.of_nat n)).
Proof.
  intros H. unfold draw_size. rewrite int_floor.
  - apply Qfloor_comp. apply Qmult_comm.
  - rewrite Qmult_comm. apply frac_scale_nonneg; [exact H | lia].
Qed.

Lemma draw_size_nonneg (level : Q) (n : nat) :
  (0 <= level)%Q -> 0 <= draw_size level n.
Proof.
  intros H. rewrite draw_size_floor by exact H.
  rewrite <- (Qfloor_Z 0). apply Qfloor_resp_le.
  apply frac_scale_nonneg; [exact H | lia].
Qed.

Lemma draw_size_empty (level : Q) : draw_size level 0 = 0.
Proof.
  unfold draw_size, Py.int. destruct level as [p d]. simpl. reflexivity.
Qed.

Lemma drawn_positions_length (nseed : Z) (level : Q) (n : nat) :
  length (drawn_positions nseed level n) = Z.to_nat (draw_size level n).
Proof. apply randint_length. Qed.

Lemma drawn_positions_range (nseed : Z) (level : Q) (n : nat) :
  Forall (fun i => (i < n)%nat) (drawn_positions nseed level n).
Proof.
  destruct n as [|n].
  - pose proof (drawn_positions_length nseed level 0) as H.
    rewrite draw_size_empty in H.
    destruct (drawn_positions nseed level 0); [constructor | discriminate].
  - apply randint_range. lia.
Qed.

(** What [select_indices] computes and the state it leaves: the generator
    is the one reached from the freshly seeded state, whatever it was
    before. *)
Lemma select_indices_run (y : list (Z * Z)) (st : State) :
  (0 <= noise_level (self st))%Q ->
  let noise := np_where is_noise y in
  let size := Z.to_nat (draw_size (noise_level (self st)) (length noise)) in
  let d := random_randint (length noise) size
             (random_seed (noise_seed (self st))) in
  exists sel,
    np_take noise (drawn_positions (noise_seed (self st))
                     (noise_level (self st)) (length noise)) = Ok sel
    /\ select_indices y st
       = (Ok (np_where (fun r => negb (is_noise r)) y, sel),
          set_np_random (snd d) st).
Proof.
  intros Hlevel noise size d.
  destruct (np_take_ok noise
              (drawn_positions (noise_seed (self st)) (noise_level (self st))
                 (length noise))
              (drawn_positions_range _ _ _)) as (sel & Hsel & _).
  exists sel. split; [exact Hsel|].
  pose proof (draw_size_nonneg (noise_level (self st)) (length noise) Hlevel)
    as Hnn.
  pose proof (draw_size_empty (noise_level (self st))) as Hempty.
  unfold drawn_positions in Hsel. fold size in Hsel. fold d in Hsel.
  unfold select_indices, np_random_choice.
  fold noise. unfold Py.len.
  unfold mbind, M_bind, bind, get, np_random_seed, modify. cbn [fst snd].
  unfold size, draw_size in *.
  set (sz := Py.int (inject_Z (Z.of_nat (length noise))
                     * noise_level (self st))) in *.
  destruct (sz <? 0) eqn:E1; [apply Z.ltb_lt in E1; lia|].
  assert (E2 : ((length noise =? 0)%nat && negb (sz =? 0)) = false).
  { subst sz. destruct (length noise) eqn:Hn; [|reflexivity].
    rewrite Hempty. reflexivity. }
  rewrite E2. cbn [set_np_random self np_random].
  fold d. destruct d as [idx r]. cbn [fst snd] in *.
  unfold lift, ret. rewrite Hsel. reflexivity.
Qed.

(** *** The configuration is a frame of the loop

    No step of [make_noisy_data]'s loop assigns to an attribute of [self]. *)

Lemma keeps_self_ret {A} (a : A) : keeps_self (ret a).
Proof. intros st. reflexivity. Qed.

Lemma keeps_self_raise {A} (e : Exception) : keeps_self (@raise G A e).
Proof. intros st. reflexivity. Qed.

Lemma keeps_self_lift {A} (r : Result A) : keeps_self (lift r).
Proof. intros st. reflexivity. Qed.

Lemma keeps_self_get : keeps_self get.
Proof. intros st. reflexivity. Qed.

Lemma keeps_self_bind {A B} (m : M A) (k : A -> M B) :
  keeps_self m -> (forall a, keeps_self (k a)) -> keeps_self (m ≫= k).
Proof.
  intros Hm Hk st. unfold mbind, M_bind, bind.
  specialize (Hm st). destruct (m st) as [[a|e] st1]; simpl in *.
  - rewrite Hk. exact Hm.
  - exact Hm.
Qed.

Lemma keeps_self_modify (f : State -> State) :
  (forall st, self (f st) = self st) -> keeps_self (modify f).
Proof. intros Hf st. apply Hf. Qed.

Create HintDb frame.
#[local] Hint Resolve keeps_self_ret keeps_self_raise keeps_self_lift
  keeps_self_get keeps_self_bind keeps_self_modify : frame.

Lemma keeps_self_np_load (p : Path) : keeps_self (np_load p).
Proof.
  unfold np_load. apply keeps_self_bind; [auto with frame|].
  intros st. destruct (files st !! p); auto with frame.
Qed.

Lemma keeps_self_choice (a : list nat) (size : Z) :
  keeps_self (np_random_choice a size).
Proof.
  unfold np_random_choice.
  destruct (size <? 0); [auto with frame|].
  destruct ((length a =? 0)%nat && negb (size =? 0)); [auto with frame|].
  apply keeps_self_bind; [auto with frame|]. intros st.
  destruct (random_randint (length a) (Z.to_nat size) (np_random st)).
  apply keeps_self_bind; auto with frame.
Qed.

Lemma keeps_self_select_indices (y : list (Z * Z)) :
  keeps_self (select_indices y).
Proof.
  unfold select_indices.
  apply keeps_self_bind; [auto with frame|]. intros st.
  apply keeps_self_bind; [unfold np_random_seed; auto with frame|]. intros _.
  apply keeps_self_bind; [apply keeps_self_choice|]. auto with frame.
Qed.

Lemma keeps_self_noisy_event (p : Path) : keeps_self (noisy_event p).
Proof.
  unfold noisy_event.
  apply keeps_self_bind; [apply keeps_self_np_load|]. intros ev.
  apply keeps_self_bind; [apply keeps_self_select_indices|]. intros sel.
  destruct (0 <? Py.len (fst sel ++ snd sel)); [|auto with frame].
  apply keeps_self_bind; [auto with frame|]. intros xs.
  apply keeps_self_bind; [auto with frame|]. intros ys.
  apply keeps_self_bind; [auto with frame|]. intros st.
  unfold np_savez. auto with frame.
Qed.



Lemma np_where_length {A} (p : A -> bool) (l : list A) :
  length (np_where p l) = length (List.filter p l).
Proof.
  unfold np_where. generalize 0%nat.
  induction l as [|a l IH]; intros i; simpl; [reflexivity|].
  destruct (p a); simpl; rewrite IH; reflexivity.
Qed.

(** One iteration of the loop on an event file that exists. *)
Lemma noisy_event_run (p : Path) (ev : Event) (st : State) :
  files st !! p = Some ev ->
  event_wf ev ->
  (0 <= noise_level (self st))%Q ->
  exists sel xs ys r,
    let selected := np_where (fun r => negb (is_noise r)) (ev_y ev) ++ sel in
    let target := (noisy_data_dir (self st), path_stem p) in
    select_indices (ev_y ev) st
    = (Ok (np_where (fun r => negb (is_noise r)) (ev_y ev), sel),
       set_np_random r st)
    /\ np_take (ev_x ev) selected = Ok xs
    /\ np_take (ev_y ev) selected = Ok ys
    /\ noisy_event p st
       = (Ok tt,
          match selected with
          | [] => set_np_random r st
          | _ :: _ => write_file target (mkEvent xs ys) (set_np_random r st)
          end).
Proof.
  intros Hfile Hwf Hlevel.
  destruct (select_indices_run (ev_y ev) st Hlevel) as (sel & Hsel & Hrun).
  cbv zeta in Hrun.
  set (r := snd (random_randint _ _ _)) in Hrun.
  set (nn := np_where (fun r => negb (is_noise r)) (ev_y ev)) in *.
  assert (Hrange : Forall (fun i => (i < length (ev_y ev))%nat) (nn ++ sel)).
  { apply Forall_app. split; [apply np_where_lt|].
    apply np_take_In in Hsel.
    eapply Forall_impl; [exact Hsel|]. cbv beta. intros i Hi.
    pose proof (np_where_lt is_noise (ev_y ev)) as Hlt.
    rewrite List.Forall_forall in Hlt. apply Hlt. exact Hi. }
  destruct (np_take_ok (ev_y ev) (nn ++ sel) Hrange) as (ys & Hys & _).
  assert (Hrange' : Forall (fun i => (i < length (ev_x ev))%nat) (nn ++ sel)).
  { unfold event_wf in Hwf. rewrite Hwf. exact Hrange. }
  destruct (np_take_ok (ev_x ev) (nn ++ sel) Hrange') as (xs & Hxs & _).
  exists sel, xs, ys, r. cbv zeta.
  split; [exact Hrun|]. split; [exact Hxs|]. split; [exact Hys|].
  unfold noisy_event, np_load.
  unfold mbind, M_bind, bind, get. cbn [fst snd].
  rewrite Hfile. unfold ret at 1. rewrite Hrun. cbn [fst snd].
  fold nn.
  destruct (nn ++ sel) as [|i rest] eqn:Hselected.
  - reflexivity.
  - assert (Hpos : (0 <? Py.len (i :: rest)) = true).
    { apply Z.ltb_lt. unfold Py.len. simpl. lia. }
    rewrite Hpos. unfold lift. rewrite Hxs, Hys.
    unfold np_savez, modify. cbn [set_np_random self]. reflexivity.
Qed.


(** C7.  When noise_level == 1.0, [make_noisy_data] returns at once and
    leaves the whole state as it found it: no file is written or saved,
    nothing is logged, the listing cache of [self] and the generator are
    untouched. *)
Theorem C7_noise_level_one_is_noop (st : State) :
  (noise_level (self st) == 1)%Q ->
  make_noisy_data st = (Ok tt, st).
Proof.
  intros H. unfold make_noisy_data, mbind, M_bind, bind, get.
  apply Qeq_bool_iff in H. rewrite H. reflexivity.
Qed.



End NoiseSampler.

(** *** The sampler on the concrete event, with numpy's generator *)



Lemma C7_noise_level_one_is_noop_witness :
  make_noisy_data raw_state = (Ok tt, raw_state).
Proof.
  apply (C7_noise_level_one_is_noop raw_state). reflexivity.
Defined.



(** The loop on the concrete event: what is selected, and that the
    sub-sampled file holds the two non-noise hits and five noise rows. *)
Example noisy_event_example :
  fst (noisy_event example_raw_path noisy_state) = Ok tt
  /\ saved later_state = [("data/0.5_noise", "event_0")]
  /\ option_map ev_y (files later_state !! ("data/0.5_noise", "event_0"))
     = Some [(1, 1); (2, 1); (0, 0); (0, 0); (0, 0); (0, 0); (0, 0)].
Proof. vm_compute. repeat split. Qed.


(* ===================================================================== *)
(** ** The per-event loader *)
(* ===================================================================== *)




Lemma amin0_nonempty (l : list (Z * Z * Z)) :
  l <> [] -> exists m, amin0 l = Some m.
Proof. destruct l as [|c l]; [congruence|]. intros _. simpl. eauto. Qed.

Section Loader.

Context {G : NumpyRandom}.

(** The loader on an index in range whose event file exists and is not
    empty: it raises exactly for an unknown task. *)
Lemma get_pc_feat_labels_run (this : HGCalDataset) (index : Z)
    (st : State) (p : Path) (ev : Event) :
  Py.getitem (ds_events this) index = Some p ->
  files st !! p = Some ev ->
  ev_x ev <> [] ->
  exists m,
    amin0 (quantize (ds_voxel_size this) (ev_x ev)) = Some m
    /\ fst (_get_pc_feat_labels this index st)
       = if bool_decide (valid_task (ds_task this)) then
           Ok (map (sub3 m) (quantize (ds_voxel_size this) (ev_x ev)),
               ev_x ev, task_labels (ds_task this) (ev_y ev))
         else
           Raise (RuntimeError
                    ("Unknown task = " +:+ dquote +:+ ds_task this +:+ dquote)).
Proof.
  intros Hidx Hfile Hne.
  assert (Hq : quantize (ds_voxel_size this) (ev_x ev) <> []).
  { unfold quantize. destruct (ev_x ev); [congruence | discriminate]. }
  destruct (amin0_nonempty _ Hq) as (m & Hm).
  exists m. split; [exact Hm|].
  unfold _get_pc_feat_labels, np_load, task_labels, valid_task.
  unfold mbind, M_bind, bind, get. rewrite Hidx. unfold ret at 1.
  cbn [fst snd]. rewrite Hfile. unfold ret at 1. cbn [fst snd].
  destruct (String.eqb (ds_task this) "panoptic") eqn:E1.
  { apply String.eqb_eq in E1. rewrite bool_decide_true by tauto.
    unfold ret at 1. cbn [fst snd]. rewrite Hm. reflexivity. }
  destruct (String.eqb (ds_task this) "semantic") eqn:E2.
  { apply String.eqb_eq in E2. rewrite bool_decide_true by tauto.
    unfold ret at 1. cbn [fst snd]. rewrite Hm. reflexivity. }
  destruct (String.eqb (ds_task this) "instance") eqn:E3.
  { apply String.eqb_eq in E3. rewrite bool_decide_true by tauto.
    unfold ret at 1. cbn [fst snd]. rewrite Hm. reflexivity. }
  apply String.eqb_neq in E1, E2, E3.
  rewrite bool_decide_false by tauto. reflexivity.
Qed.


(** C6 (amended).  For every access at an index in range whose event file
    exists and holds at least one hit, the loader raises an error if and
    only if the task name is not one of panoptic, semantic, instance (the
    error is then the RuntimeError naming the task); for panoptic it
    returns the full two-column label array, for semantic label column 0
    and for instance label column 1. *)
Theorem C6_loader_task_dispatch (this : HGCalDataset) (index : Z)
    (st : State) (p : Path) (ev : Event) :
  Py.getitem (ds_events this) index = Some p ->
  files st !! p = Some ev ->
  ev_x ev <> [] ->
  let r := fst (_get_pc_feat_labels this index st) in
  ((exists e, r = Raise e) <-> ~ valid_task (ds_task this))
  /\ (~ valid_task (ds_task this) ->
      r = Raise (RuntimeError
                   ("Unknown task = " +:+ dquote +:+ ds_task this +:+ dquote)))
  /\ (ds_task this = "panoptic" ->
      exists pc, r = Ok (pc, ev_x ev, LabelArray (ev_y ev)))
  /\ (ds_task this = "semantic" ->
      exists pc, r = Ok (pc, ev_x ev, LabelColumn (map fst (ev_y ev))))
  /\ (ds_task this = "instance" ->
      exists pc, r = Ok (pc, ev_x ev, LabelColumn (map snd (ev_y ev)))).
Proof.
  intros Hidx Hfile Hne r.
  destruct (get_pc_feat_labels_run this index st p ev Hidx Hfile Hne)
    as (m & Hm & Hrun).
  subst r. rewrite Hrun. clear Hrun.
  destruct (bool_decide (valid_task (ds_task this))) eqn:Hv.
  - apply bool_decide_eq_true in Hv.
    split; [split; [intros (e & He); discriminate | tauto]|].
    split; [tauto|].
    unfold task_labels.
    repeat split; intros ->; eexists; reflexivity.
  - apply bool_decide_eq_false in Hv.
    split; [split; [tauto | intros _; eexists; reflexivity]|].
    split; [reflexivity|].
    unfold valid_task in Hv.
    repeat split; intros Ht; exfalso; apply Hv; tauto.
Qed.

End Loader.

(** *** The loader on the concrete events *)



(** C6 (counterexample).  With the recognised task name semantic, the
    access to an event file without hits raises: the minimum over an
    empty array is a ValueError. *)
Lemma C6_empty_event_raises :
  valid_task "semantic"
  /\ fst (_get_pc_feat_labels (mkDataset 10 [voxel_path; empty_path]
                                 "semantic") 1 loader_state)
     = Raise ValueError.
Proof. split; [right; left; reflexivity | vm_compute; reflexivity]. Qed.

Lemma C6_loader_task_dispatch_witness :
  let this := mkDataset 10 [voxel_path; empty_path] "instance" in
  let r := fst (_get_pc_feat_labels this (-2) loader_state) in
  ((exists e, r = Raise e) <-> ~ valid_task (ds_task this))
  /\ (~ valid_task (ds_task this) ->
      r = Raise (RuntimeError
                   ("Unknown task = " +:+ dquote +:+ ds_task this +:+ dquote)))
  /\ (ds_task this = "panoptic" ->
      exists pc, r = Ok (pc, ev_x voxel_event, LabelArray (ev_y voxel_event)))
  /\ (ds_task this = "semantic" ->
      exists pc, r = Ok (pc, ev_x voxel_event,
                         LabelColumn (map fst (ev_y voxel_event))))
  /\ (ds_task this = "instance" ->
      exists pc, r = Ok (pc, ev_x voxel_event,
                         LabelColumn (map snd (ev_y voxel_event)))).
Proof.
  apply (C6_loader_task_dispatch
           (mkDataset 10 [voxel_path; empty_path] "instance") (-2)
           loader_state voxel_path voxel_event).
  - reflexivity.
  - vm_compute. reflexivity.
  - discriminate.
Defined.

(** An unknown task name, here the constructor's default, raises. *)
Example loader_default_task_raises :
  fst (_get_pc_feat_labels (mkDataset 10 [voxel_path] "class") 0 loader_state)
  = Raise (RuntimeError ("Unknown task = " +:+ dquote +:+ "class" +:+ dquote)).
Proof. vm_compute. reflexivity. Qed.

(* ===================================================================== *)
(** ** Seed derivation in [setup] *)
(* ===================================================================== *)

Section Setup.

Context {G : NumpyRandom}.

(** What a call of [setup] does to the seed and to the seeding trace, and
    what it leaves alone. *)
Lemma setup_run (stage : option string) (st : State) :
  let st' := snd (setup stage st) in
  fst (setup stage st) = Ok tt
  /\ seed (self st') = Some (base_seed st + rank_offset st)
  /\ seeded st' = seeded st ++ [base_seed st + rank_offset st]
  /\ rank st' = rank st
  /\ num_workers (self st') = num_workers (self st)
  /\ num_epochs (self st') = num_epochs (self st).
Proof.
  unfold setup, base_seed, rank_offset, events, pl_seed_everything.
  unfold mbind, M_bind, bind, get, modify, ret. cbn [fst snd].
  set (s' := _ + rank st * num_workers (self st) * num_epochs (self st)).
  cbn [set_self add_log add_seeded self with_seed _events].
  destruct (_events (self st)) as [l|]; cbn [fst snd];
    cbn [set_self add_log add_seeded self with_seed with_events files
         noisy_data_dir seed num_workers num_epochs rank voxel_size task
         seeded];
    match goal with
    | |- context [train_val_test_split ?m ?l] =>
        destruct (train_val_test_split m l) as [[tr va] te]
    end;
    destruct (bool_decide (stage = Some "fit" \/ stage = None));
    destruct (bool_decide (stage = Some "test" \/ stage = None));
    cbn; repeat split; reflexivity.
Qed.

(** C5 (amended).  The seed [setup] derives is
    base_seed + rank * num_workers * num_epochs, and for every fixed
    (base_seed, num_workers, num_epochs) with
    num_workers * num_epochs <> 0 any two distinct ranks produce distinct
    seeds. *)
Theorem C5_seed_derivation (stage : option string) (st1 st2 : State) :
  seed (self (snd (setup stage st1)))
  = Some (base_seed st1
          + rank st1 * num_workers (self st1) * num_epochs (self st1))
  /\ (base_seed st1 = base_seed st2 ->
      num_workers (self st1) = num_workers (self st2) ->
      num_epochs (self st1) = num_epochs (self st2) ->
      num_workers (self st1) * num_epochs (self st1) <> 0 ->
      rank st1 <> rank st2 ->
      seed (self (snd (setup stage st1)))
      <> seed (self (snd (setup stage st2)))).
Proof.
  destruct (setup_run stage st1) as (_ & Hs1 & _).
  destruct (setup_run stage st2) as (_ & Hs2 & _).
  cbv zeta in Hs1, Hs2. unfold rank_offset in *.
  split; [exact Hs1|].
  intros Hbase Hnw Hne Hnz Hrank. rewrite Hs1, Hs2.
  rewrite <- Hbase, <- Hnw, <- Hne. intros H. inversion H as [Heq].
  apply Hrank.
  apply (Z.mul_cancel_r _ _ (num_workers (self st1) * num_epochs (self st1)));
    [exact Hnz | lia].
Qed.

(** C10.  When the seed is already set, a call of [setup] replaces it by
    itself plus the rank offset get_rank() * num_workers * num_epochs:
    after two successive calls the seed is the original one plus twice the
    offset, the two calls pass the original plus the offset and the
    original plus twice the offset to the global seeding call, and these
    differ whenever the offset is not zero; [setup] is then not
    idempotent. *)
Theorem C10_setup_accumulates_offset
    (stage1 stage2 : option string) (st : State) (s : Z) :
  seed (self st) = Some s ->
  let k := rank st * num_workers (self st) * num_epochs (self st) in
  let st1 := snd (setup stage1 st) in
  let st2 := snd (setup stage2 st1) in
  fst (setup stage1 st) = Ok tt
  /\ fst (setup stage2 st1) = Ok tt
  /\ seed (self st1) = Some (s + k)
  /\ seed (self st2) = Some (s + 2 * k)
  /\ seeded st2 = seeded st ++ [s + k; s + 2 * k]
  /\ (k <> 0 -> s + k <> s + 2 * k /\ self st2 <> self st1).
Proof.
  intros Hseed k st1 st2.
  destruct (setup_run stage1 st) as (Hok1 & Hs1 & Htr1 & Hr1 & Hw1 & He1).
  destruct (setup_run stage2 st1) as (Hok2 & Hs2 & Htr2 & Hr2 & Hw2 & He2).
  cbv zeta in *. fold st1 in Hs1, Htr1, Hr1, Hw1, He1.
  fold st2 in Hs2, Htr2, Hr2, Hw2, He2.
  assert (Hb : base_seed st = s) by (unfold base_seed; rewrite Hseed; reflexivity).
  assert (Hk : rank_offset st = k) by reflexivity.
  assert (Hk1 : rank_offset st1 = k)
    by (unfold rank_offset; rewrite Hr1, Hw1, He1; reflexivity).
  rewrite Hb, Hk in Hs1, Htr1.
  assert (Hb1 : base_seed st1 = s + k)
    by (unfold base_seed; rewrite Hs1; reflexivity).
  rewrite Hb1, Hk1 in Hs2, Htr2.
  replace (s + k + k) with (s + 2 * k) in Hs2, Htr2 by lia.
  split; [exact Hok1|]. split; [exact Hok2|].
  split; [exact Hs1|]. split; [exact Hs2|].
  split; [rewrite Htr2, Htr1, <- app_assoc; reflexivity|].
  intros Hnz. split; [lia|].
  intros Heq. rewrite Heq, Hs1 in Hs2. inversion Hs2. lia.
Qed.

End Setup.

(** *** [setup] on the concrete processes *)

(** C5 (counterexample).  With num_workers = 0 (loading in the main
    process) the offset is zero for every rank: the processes of rank 0
    and of rank 1 derive the same seed 42. *)
Lemma C5_ranks_share_seed_without_workers :
  let m := seeded_module (Some 42) 0 10 in
  rank (rank_state m 0) <> rank (rank_state m 1)
  /\ seed (self (snd (setup (Some "fit") (rank_state m 0)))) = Some 42
  /\ seed (self (snd (setup (Some "fit") (rank_state m 1)))) = Some 42.
Proof. split; [discriminate|]. split; vm_compute; reflexivity. Qed.

Lemma C5_seed_derivation_witness :
  let st1 := rank_state (seeded_module (Some 42) 4 10) 0 in
  let st2 := rank_state (seeded_module (Some 42) 4 10) 1 in
  seed (self (snd (setup (Some "fit") st1)))
  = Some (base_seed st1
          + rank st1 * num_workers (self st1) * num_epochs (self st1))
  /\ seed (self (snd (setup (Some "fit") st1)))
     <> seed (self (snd (setup (Some "fit") st2))).
Proof.
  destruct (C5_seed_derivation (Some "fit")
              (rank_state (seeded_module (Some 42) 4 10) 0)
              (rank_state (seeded_module (Some 42) 4 10) 1)) as [H1 H2].
  split; [exact H1|].
  apply H2.
  - reflexivity.
  - reflexivity.
  - reflexivity.
  - vm_compute. discriminate.
  - vm_compute. discriminate.
Defined.

Lemma C10_setup_accumulates_offset_witness :
  let st := rank_state (seeded_module (Some 42) 4 10) 3 in
  let k := rank st * num_workers (self st) * num_epochs (self st) in
  let st1 := snd (setup (Some "fit") st) in
  let st2 := snd (setup (Some "test") st1) in
  fst (setup (Some "fit") st) = Ok tt
  /\ fst (setup (Some "test") st1) = Ok tt
  /\ seed (self st1) = Some (42 + k)
  /\ seed (self st2) = Some (42 + 2 * k)
  /\ seeded st2 = seeded st ++ [42 + k; 42 + 2 * k]
  /\ (k <> 0 -> 42 + k <> 42 + 2 * k /\ self st2 <> self st1).
Proof.
  apply (C10_setup_accumulates_offset (Some "fit") (Some "test")
           (rank_state (seeded_module (Some 42) 4 10) 3) 42).
  reflexivity.
Defined.

(** Rank 3 with four workers and ten epochs: 42, then 162, then 282. *)
Example setup_twice_example :
  let st := rank_state (seeded_module (Some 42) 4 10) 3 in
  let st2 := snd (setup (Some "test") (snd (setup (Some "fit") st))) in
  seed (self st2) = Some 282 /\ seeded st2 = [162; 282].
Proof. vm_compute. split; reflexivity. Qed.


(** C1 (defect in the code).  With three events and the validated
    fractions event_frac = 1.0, train_frac = 0.5, test_frac = 0.25 the
    number of test events is int(0.75) = 0; [train_val_test_split] then
    returns an empty validation list and the whole list as test list,
    whereas the slices of the specification are train = [e0],
    val = [e1; e2] and test = []. *)
Theorem C1_split_without_test_events :
  let m := example_module 1 (1 # 2) (1 # 4) 1 "1.0_noise" 31 in
  let evs := ["e0"; "e1"; "e2"] in
  _validate_fracs (event_frac m) (train_frac m) (test_frac m) = true
  /\ Py.int (test_frac m * inject_Z (Py.len evs)) = 0
  /\ train_val_test_split m evs = (["e0"], [], ["e0"; "e1"; "e2"])
  /\ spec_split (event_frac m) (train_frac m) (test_frac m) evs
     = (["e0"], ["e1"; "e2"], []).
Proof. vm_compute. repeat split. Qed.

(** C2 (defect in the code).  On the same input the three returned lists
    have 1 + 0 + 3 = 4 elements in total although floor(event_frac * N) is
    3, and the first event belongs both to the training and to the test
    list. *)
Theorem C2_split_overlaps_without_test_events :
  let m := example_module 1 (1 # 2) (1 # 4) 1 "1.0_noise" 31 in
  let evs := ["e0"; "e1"; "e2"] in
  let '(train, val, test) := train_val_test_split m evs in
  _validate_fracs (event_frac m) (train_frac m) (test_frac m) = true
  /\ Py.len train + Py.len val + Py.len test = 4
  /\ Qfloor (event_frac m * inject_Z (Py.len evs)) = 3
  /\ In "e0" train /\ In "e0" test.
Proof. vm_compute. repeat split; auto. Qed.


(* ===================================================================== *)
(** ** The cached listings *)
(* ===================================================================== *)

Lemma insert_by_stem_perm (p : Path) (l : list Path) :
  Permutation (insert_by_stem p l) (p :: l).
Proof.
  induction l as [|q l IH]; simpl; [reflexivity|].
  destruct (String.leb (path_stem p) (path_stem q)); [reflexivity|].
  rewrite IH. apply perm_swap.
Qed.

Lemma sort_by_stem_perm (l : list Path) :
  Permutation (foldr insert_by_stem [] l) l.
Proof.
  induction l as [|p l IH]; simpl; [reflexivity|].
  rewrite insert_by_stem_perm. constructor. exact IH.
Qed.




Lemma sorted_glob_keys (fs : gmap Path Event) :
  List.NoDup (map fst (map_to_list fs))
  /\ (forall p, In p (map fst (map_to_list fs))
                <-> exists ev, fs !! p = Some ev).
Proof.
  split.
  - apply NoDup_ListNoDup. exact (NoDup_fst_map_to_list fs).
  - intros p. rewrite in_map_iff. split.
    + intros ([q ev] & <- & Hq). exists ev.
      apply list_elem_of_In, elem_of_map_to_list in Hq. exact Hq.
    + intros (ev & Hev). exists (p, ev). split; [reflexivity|].
      apply list_elem_of_In, elem_of_map_to_list. exact Hev.
Qed.

Lemma sorted_glob_In (dir : string) (fs : gmap Path Event) (p : Path) :
  In p (sorted_glob dir fs) <-> fst p = dir /\ exists ev, fs !! p = Some ev.
Proof.
  unfold sorted_glob. destruct (sorted_glob_keys fs) as [_ Hin]. split.
  - intros H. apply (Permutation_in _ (sort_by_stem_perm _)) in H.
    apply filter_In in H as [Hk Hd].
    split; [apply String.eqb_eq; exact Hd | apply Hin; exact Hk].
  - intros [Hd Hev].
    apply (Permutation_in _ (Permutation_sym (sort_by_stem_perm _))).
    apply filter_In. split; [apply Hin; exact Hev|].
    apply String.eqb_eq. exact Hd.
Qed.


Section Listings.

Context {G : NumpyRandom}.

(** X2.  Both listings are computed once and then served from the cache:
    the first access stores the sorted directory listing in [self], and
    every later access returns the stored list and changes nothing,
    whatever has happened to the files in the meantime. *)
Theorem listings_memoized (st : State) :
  (exists l,
      raw_events st
      = (Ok l, match _raw_events (self st) with
               | Some _ => st
               | None => set_self (with_raw_events (Some l)) st
               end)
      /\ (_raw_events (self st) = None ->
          l = sorted_glob (raw_data_dir (self st)) (files st))
      /\ _raw_events (self (snd (raw_events st))) = Some l
      /\ (forall st2, _raw_events (self st2) = Some l ->
                      raw_events st2 = (Ok l, st2)))
  /\ (exists l,
      events st
      = (Ok l, match _events (self st) with
               | Some _ => st
               | None => set_self (with_events (Some l)) st
               end)
      /\ (_events (self st) = None ->
          l = sorted_glob (noisy_data_dir (self st)) (files st))
      /\ _events (self (snd (events st))) = Some l
      /\ (forall st2, _events (self st2) = Some l ->
                      events st2 = (Ok l, st2))).
Proof.
  split.
  - unfold raw_events, mbind, M_bind, bind, get, modify, ret. cbn [fst snd].
    destruct (_raw_events (self st)) as [l|] eqn:E.
    + exists l. split; [reflexivity|]. split; [discriminate|].
      split; [exact E|]. intros st2 ->. reflexivity.
    + eexists. split; [reflexivity|]. split; [reflexivity|].
      split; [reflexivity|]. intros st2 ->. reflexivity.
  - unfold events, mbind, M_bind, bind, get, modify, ret. cbn [fst snd].
    destruct (_events (self st)) as [l|] eqn:E.
    + exists l. split; [reflexivity|]. split; [discriminate|].
      split; [exact E|]. intros st2 ->. reflexivity.
    + eexists. split; [reflexivity|]. split; [reflexivity|].
      split; [reflexivity|]. intros st2 ->. reflexivity.
Qed.

End Listings.

(* ===================================================================== *)
(** ** More on the partitioner *)
(* ===================================================================== *)







(* ===================================================================== *)
(** ** More on the per-event loader *)
(* ===================================================================== *)

Lemma fold_min3_le_init (l : list (Z * Z * Z)) (c : Z * Z * Z) :
  le3 (fold_left min3 l c) c.
Proof.
  revert c. induction l as [|a l IH]; intros c; simpl.
  - destruct c as [[cx cy] cz]. simpl. lia.
  - specialize (IH (min3 c a)).
    destruct (fold_left min3 l (min3 c a)) as [[mx my] mz].
    destruct c as [[cx cy] cz], a as [[ax ay] az]. simpl in *. lia.
Qed.

Lemma fold_min3_le_all (l : list (Z * Z * Z)) (c : Z * Z * Z) :
  Forall (le3 (fold_left min3 l c)) l.
Proof.
  revert c. induction l as [|a l IH]; intros c; simpl; constructor.
  - pose proof (fold_min3_le_init l (min3 c a)) as H.
    destruct (fold_left min3 l (min3 c a)) as [[mx my] mz].
    destruct c as [[cx cy] cz], a as [[ax ay] az]. simpl in *. lia.
  - apply IH.
Qed.

(** The per-axis minimum is below every row. *)
Lemma amin0_lower_bound (l : list (Z * Z * Z)) (m : Z * Z * Z) :
  amin0 l = Some m -> Forall (le3 m) l.
Proof.
  destruct l as [|c l]; simpl; [discriminate|].
  intros H. injection H as <-. constructor.
  - apply fold_min3_le_init.
  - apply fold_min3_le_all.
Qed.

Section LoaderMore.

Context {G : NumpyRandom}.

(** X6.  An access never changes anything: whether it returns or raises,
    the state after [_get_pc_feat_labels] is the state before (nothing is
    cached, written, logged or drawn). *)
Theorem loader_is_read_only (this : HGCalDataset) (index : Z) (st : State) :
  snd (_get_pc_feat_labels this index st) = st.
Proof.
  unfold _get_pc_feat_labels, np_load.
  unfold mbind, M_bind, bind, get, ret, raise. cbn [fst snd].
  destruct (Py.getitem (ds_events this) index) as [p|]; [|reflexivity].
  cbn [fst snd]. destruct (files st !! p) as [ev|]; [|reflexivity].
  cbn [fst snd].
  destruct (String.eqb (ds_task this) "panoptic");
    [cbn [fst snd]; destruct (amin0 _); reflexivity|].
  destruct (String.eqb (ds_task this) "semantic");
    [cbn [fst snd]; destruct (amin0 _); reflexivity|].
  destruct (String.eqb (ds_task this) "instance");
    [cbn [fst snd]; destruct (amin0 _); reflexivity|].
  reflexivity.
Qed.

(** X7.  Indexing follows Python's list indexing: an index at or beyond
    len(events), or below -len(events), raises IndexError whatever the
    task and the files are, and a negative index -k in range reads the
    same event as the index len(events) - k. *)
Theorem loader_index_semantics (this : HGCalDataset) (index : Z) (st : State) :
  let n := Py.len (ds_events this) in
  (index < - n \/ n <= index ->
   fst (_get_pc_feat_labels this index st) = Raise IndexError)
  /\ (- n <= index < 0 ->
      _get_pc_feat_labels this index st
      = _get_pc_feat_labels this (index + n) st).
Proof.
  cbv zeta. split.
  - intros Hout.
    assert (Hget : Py.getitem (ds_events this) index = None).
    { unfold Py.getitem.
      destruct (index <? 0) eqn:E.
      - apply Z.ltb_lt in E.
        destruct (0 <=? index + Py.len (ds_events this)) eqn:E2;
          [apply Z.leb_le in E2; lia | reflexivity].
      - apply Z.ltb_ge in E.
        destruct (index <? Py.len (ds_events this)) eqn:E2;
          [apply Z.ltb_lt in E2; lia | rewrite andb_false_r; reflexivity]. }
    unfold _get_pc_feat_labels, mbind, M_bind, bind. rewrite Hget.
    reflexivity.
  - intros Hneg.
    assert (Hget : Py.getitem (ds_events this) index
                   = Py.getitem (ds_events this)
                       (index + Py.len (ds_events this))).
    { unfold Py.getitem.
      destruct (index <? 0) eqn:E; [|apply Z.ltb_ge in E; lia].
      destruct (index + Py.len (ds_events this) <? 0) eqn:E2;
        [apply Z.ltb_lt in E2; lia | reflexivity]. }
    unfold _get_pc_feat_labels. rewrite Hget. reflexivity.
Qed.

Lemma loader_empty_event_raises (this : HGCalDataset) (index : Z)
    (st : State) (p : Path) (ev : Event) :
  Py.getitem (ds_events this) index = Some p ->
  files st !! p = Some ev ->
  ev_x ev = [] ->
  exists e, fst (_get_pc_feat_labels this index st) = Raise e.
Proof.
  intros Hidx Hfile Hempty.
  unfold _get_pc_feat_labels, np_load.
  unfold mbind, M_bind, bind, get, ret, raise. cbn [fst snd].
  rewrite Hidx. cbn [fst snd]. rewrite Hfile. cbn [fst snd]. rewrite Hempty.
  destruct (String.eqb (ds_task this) "panoptic"); [eexists; reflexivity|].
  destruct (String.eqb (ds_task this) "semantic"); [eexists; reflexivity|].
  destruct (String.eqb (ds_task this) "instance"); eexists; reflexivity.
Qed.

(** X8.  The order in which an access fails: a bad index is an
    IndexError; otherwise a missing event file is a FileNotFoundError;
    otherwise an unknown task is the RuntimeError, also for an event
    without hits; otherwise an event without hits is a ValueError. *)
Theorem loader_error_order (this : HGCalDataset) (index : Z) (st : State) :
  let r := fst (_get_pc_feat_labels this index st) in
  (Py.getitem (ds_events this) index = None -> r = Raise IndexError)
  /\ (forall p, Py.getitem (ds_events this) index = Some p ->
                files st !! p = None -> r = Raise FileNotFoundError)
  /\ (forall p ev, Py.getitem (ds_events this) index = Some p ->
                   files st !! p = Some ev ->
                   ~ valid_task (ds_task this) ->
                   r = Raise (RuntimeError
                                ("Unknown task = " +:+ dquote
                                 +:+ ds_task this +:+ dquote)))
  /\ (forall p ev, Py.getitem (ds_events this) index = Some p ->
                   files st !! p = Some ev ->
                   valid_task (ds_task this) ->
                   ev_x ev = [] ->
                   r = Raise ValueError).
Proof.
  cbv zeta.
  unfold _get_pc_feat_labels, np_load.
  unfold mbind, M_bind, bind, get, ret, raise. cbn [fst snd].
  split; [intros ->; reflexivity|].
  split; [intros p -> ; cbn [fst snd]; intros ->; reflexivity|].
  split.
  - intros p ev -> Hfile Hbad. cbn [fst snd]. rewrite Hfile. cbn [fst snd].
    unfold valid_task in Hbad.
    destruct (String.eqb (ds_task this) "panoptic") eqn:E1;
      [apply String.eqb_eq in E1; tauto|].
    destruct (String.eqb (ds_task this) "semantic") eqn:E2;
      [apply String.eqb_eq in E2; tauto|].
    destruct (String.eqb (ds_task this) "instance") eqn:E3;
      [apply String.eqb_eq in E3; tauto|].
    reflexivity.
  - intros p ev -> Hfile Hok Hempty. cbn [fst snd]. rewrite Hfile.
    cbn [fst snd]. rewrite Hempty.
    destruct Hok as [-> | [-> | ->]]; reflexivity.
Qed.

(** X9.  What a successful access returns: one voxel index per hit, no
    index with a negative component, the feature block exactly as stored
    (spatial columns included), and one label per hit. *)
Theorem loader_output_shape (this : HGCalDataset) (index : Z) (st : State)
    (p : Path) (ev : Event)
    (pc : list (Z * Z * Z)) (feat : list Hit) (labels : Labels) :
  Py.getitem (ds_events this) index = Some p ->
  files st !! p = Some ev ->
  fst (_get_pc_feat_labels this index st) = Ok (pc, feat, labels) ->
  feat = ev_x ev
  /\ length pc = length (ev_x ev)
  /\ Forall nonneg3 pc
  /\ match labels with
     | LabelArray rows => rows = ev_y ev
     | LabelColumn col => length col = length (ev_y ev)
     end.
Proof.
  intros Hidx Hfile Hok.
  destruct (decide (ev_x ev = [])) as [Hempty|Hne].
  - exfalso.
    destruct (loader_empty_event_raises this index st p ev Hidx Hfile Hempty)
      as (e & He).
    rewrite He in Hok. discriminate.
  - destruct (get_pc_feat_labels_run this index st p ev Hidx Hfile Hne)
      as (m & Hm & Hrun).
    rewrite Hrun in Hok.
    destruct (bool_decide (valid_task (ds_task this))); [|discriminate].
    injection Hok as <- <- <-.
    split; [reflexivity|]. split; [|split].
    + unfold quantize. rewrite !length_map. reflexivity.
    + apply amin0_lower_bound in Hm.
      apply List.Forall_map. eapply Forall_impl; [exact Hm|].
      cbv beta. intros c Hc. destruct m as [[mx my] mz], c as [[cx cy] cz].
      simpl in *. lia.
    + unfold task_labels.
      destruct (String.eqb (ds_task this) "panoptic"); [reflexivity|].
      destruct (String.eqb (ds_task this) "semantic");
        rewrite length_map; reflexivity.
Qed.

End LoaderMore.

Lemma loader_index_semantics_witness :
  let this := mkDataset 10 [voxel_path; empty_path] "semantic" in
  fst (_get_pc_feat_labels this 2 loader_state) = Raise IndexError
  /\ _get_pc_feat_labels this (-2) loader_state
     = _get_pc_feat_labels this (-2 + 2) loader_state.
Proof.
  split.
  - apply (proj1 (loader_index_semantics
                    (mkDataset 10 [voxel_path; empty_path] "semantic") 2
                    loader_state)).
    right. vm_compute. discriminate.
  - apply (proj2 (loader_index_semantics
                    (mkDataset 10 [voxel_path; empty_path] "semantic") (-2)
                    loader_state)).
    vm_compute. split; [discriminate | reflexivity].
Defined.

Lemma loader_error_order_witness :
  fst (_get_pc_feat_labels (mkDataset 10 [voxel_path; empty_path] "class") 5
         loader_state) = Raise IndexError
  /\ fst (_get_pc_feat_labels
            (mkDataset 10 [("data/1.0_noise", "gone")] "class") 0
            loader_state) = Raise FileNotFoundError
  /\ fst (_get_pc_feat_labels
            (mkDataset 10 [voxel_path; empty_path] "class") 1 loader_state)
     = Raise (RuntimeError
                ("Unknown task = " +:+ dquote +:+ "class" +:+ dquote))
  /\ fst (_get_pc_feat_labels
            (mkDataset 10 [voxel_path; empty_path] "panoptic") 1
            loader_state) = Raise ValueError.
Proof.
  split; [|split; [|split]].
  - apply (proj1 (loader_error_order
                    (mkDataset 10 [voxel_path; empty_path] "class") 5
                    loader_state)).
    reflexivity.
  - apply (proj1 (proj2 (loader_error_order
                    (mkDataset 10 [("data/1.0_noise", "gone")] "class") 0
                    loader_state)) ("data/1.0_noise", "gone")).
    + reflexivity.
    + vm_compute. reflexivity.
  - apply (proj1 (proj2 (proj2 (loader_error_order
                    (mkDataset 10 [voxel_path; empty_path] "class") 1
                    loader_state))) empty_path (mkEvent [] [])).
    + reflexivity.
    + vm_compute. reflexivity.
    + intros [H | [H | H]]; discriminate.
  - apply (proj2 (proj2 (proj2 (loader_error_order
                    (mkDataset 10 [voxel_path; empty_path] "panoptic") 1
                    loader_state))) empty_path (mkEvent [] [])).
    + reflexivity.
    + vm_compute. reflexivity.
    + left. reflexivity.
    + reflexivity.
Defined.

Lemma loader_output_shape_witness :
  ev_x voxel_event = ev_x voxel_event
  /\ length [(0, 0, 0); (2, 2, 0)] = length (ev_x voxel_event)
  /\ Forall nonneg3 [(0, 0, 0); (2, 2, 0)]
  /\ length [1; 0] = length (ev_y voxel_event).
Proof.
  apply (loader_output_shape (mkDataset 10 [voxel_path] "semantic") 0
           loader_state voxel_path voxel_event
           [(0, 0, 0); (2, 2, 0)] (ev_x voxel_event) (LabelColumn [1; 0])).
  - reflexivity.
  - vm_compute. reflexivity.
  - vm_compute. reflexivity.
Defined.

(* ===================================================================== *)
(** ** More on [setup] and the data loaders *)
(* ===================================================================== *)

Section SetupMore.

Context {G : NumpyRandom}.




(** X12.  When no seed was supplied, [setup] takes
    torch.initial_seed() % (2**32 - 1) as base, a value between 0 and
    2**32 - 2, adds the rank offset, and stores the result: a later call
    of [setup] no longer reads torch.initial_seed(). *)
Theorem setup_without_seed (stage stage2 : option string) (st : State) :
  seed (self st) = None ->
  let b := torch_initial_seed st mod (2 ^ 32 - 1) in
  let k := rank st * num_workers (self st) * num_epochs (self st) in
  let st' := snd (setup stage st) in
  0 <= b <= 2 ^ 32 - 2
  /\ seed (self st') = Some (b + k)
  /\ seeded st' = seeded st ++ [b + k]
  /\ base_seed st' = b + k
  /\ seed (self (snd (setup stage2 st'))) = Some (b + 2 * k).
Proof.
  intros Hnone. cbv zeta.
  destruct (setup_run stage st) as (_ & Hs & Htr & Hr & Hw & He).
  destruct (setup_run stage2 (snd (setup stage st))) as (_ & Hs2 & _).
  cbv zeta in *.
  assert (Hb : base_seed st = torch_initial_seed st mod (2 ^ 32 - 1))
    by (unfold base_seed; rewrite Hnone; reflexivity).
  unfold rank_offset in *. rewrite Hb in Hs, Htr.
  assert (Hb' : base_seed (snd (setup stage st))
                = torch_initial_seed st mod (2 ^ 32 - 1)
                  + rank st * num_workers (self st) * num_epochs (self st))
    by (unfold base_seed; rewrite Hs; reflexivity).
  split; [pose proof (Z.mod_pos_bound (torch_initial_seed st) (2 ^ 32 - 1)
                        ltac:(lia)); lia|].
  split; [exact Hs|]. split; [exact Htr|]. split; [exact Hb'|].
  rewrite Hs2, Hb', Hr, Hw, He. f_equal. lia.
Qed.

(** X13.  Worker seeds do not collide: for two processes that ran [setup]
    from the same base seed, worker count and epoch count, with at least
    one epoch, the seeds [worker_init_fn] passes to [np.random.seed] for
    worker w1 of the one and worker w2 of the other (worker ids below the
    worker count) differ unless both the ranks and the worker ids are
    equal; a seed in numpy's range seeds the generator, any other raises
    a ValueError. *)
Theorem worker_seeds_distinct (stage1 stage2 : option string)
    (st1 st2 : State) (w1 w2 : Z) :
  base_seed st1 = base_seed st2 ->
  num_workers (self st1) = num_workers (self st2) ->
  num_epochs (self st1) = num_epochs (self st2) ->
  1 <= num_epochs (self st1) ->
  0 <= w1 < num_workers (self st1) ->
  0 <= w2 < num_workers (self st1) ->
  (rank st1, w1) <> (rank st2, w2) ->
  let p1 := snd (setup stage1 st1) in
  let p2 := snd (setup stage2 st2) in
  exists s1 s2,
    worker_seed w1 p1 = Some s1
    /\ worker_seed w2 p2 = Some s2
    /\ s1 = base_seed st1
            + rank st1 * num_workers (self st1) * num_epochs (self st1) + w1
    /\ s1 <> s2
    /\ (valid_seed s1 ->
        worker_init_fn w1 p1 = WorkerSeeded (set_np_random (random_seed s1) p1))
    /\ (~ valid_seed s1 -> worker_init_fn w1 p1 = WorkerValueError).
Proof.
  intros Hbase Hnw Hne Hep Hw1 Hw2 Hdiff. cbv zeta.
  destruct (setup_run stage1 st1) as (_ & Hs1 & _).
  destruct (setup_run stage2 st2) as (_ & Hs2 & _).
  cbv zeta in *. unfold rank_offset in *.
  unfold worker_init_fn, worker_seed. rewrite Hs1, Hs2.
  eexists _, _. split; [reflexivity|]. split; [reflexivity|].
  split; [reflexivity|].
  rewrite <- Hbase, <- Hnw, <- Hne.
  set (nw := num_workers (self st1)) in *.
  set (ne := num_epochs (self st1)) in *.
  split; [|split].
  - intros Heq.
    assert (Hr : rank st1 = rank st2).
    { destruct (Z.eq_dec (rank st1) (rank st2)) as [|Hne']; [assumption|].
      exfalso.
      assert (Hd : (rank st1 - rank st2) * (nw * ne) = w2 - w1) by lia.
      assert (Hbig : nw <= nw * ne) by nia.
      destruct (Z.lt_ge_cases (rank st1) (rank st2)); nia. }
    apply Hdiff. rewrite Hr in *. f_equal. lia.
  - unfold valid_seed. intros [Hlo Hhi].
    apply Z.leb_le in Hlo, Hhi. rewrite Hlo, Hhi. reflexivity.
  - unfold valid_seed. intros Hbad.
    destruct (0 <=? _) eqn:Hlo; [|reflexivity].
    destruct (_ <=? 2 ^ 32 - 1) eqn:Hhi; [|reflexivity].
    apply Z.leb_le in Hlo, Hhi. exfalso. apply Hbad. split; assumption.
Qed.

End SetupMore.


Lemma setup_without_seed_witness :
  let st := rank_state (seeded_module None 4 10) 3 in
  let b := torch_initial_seed st mod (2 ^ 32 - 1) in
  let k := rank st * num_workers (self st) * num_epochs (self st) in
  let st' := snd (setup (Some "fit") st) in
  0 <= b <= 2 ^ 32 - 2
  /\ seed (self st') = Some (b + k)
  /\ seeded st' = seeded st ++ [b + k]
  /\ base_seed st' = b + k
  /\ seed (self (snd (setup (Some "test") st'))) = Some (b + 2 * k).
Proof.
  apply (setup_without_seed (Some "fit") (Some "test")
           (rank_state (seeded_module None 4 10) 3)).
  reflexivity.
Defined.

Lemma worker_seeds_distinct_witness :
  let st1 := rank_state (seeded_module (Some 42) 4 10) 0 in
  let st2 := rank_state (seeded_module (Some 42) 4 10) 1 in
  let p1 := snd (setup (Some "fit") st1) in
  let p2 := snd (setup (Some "fit") st2) in
  exists s1 s2,
    worker_seed 3 p1 = Some s1
    /\ worker_seed 0 p2 = Some s2
    /\ s1 = base_seed st1
            + rank st1 * num_workers (self st1) * num_epochs (self st1) + 3
    /\ s1 <> s2
    /\ (valid_seed s1 ->
        worker_init_fn 3 p1 = WorkerSeeded (set_np_random (random_seed s1) p1))
    /\ (~ valid_seed s1 -> worker_init_fn 3 p1 = WorkerValueError).
Proof.
  apply (worker_seeds_distinct (Some "fit") (Some "fit")
           (rank_state (seeded_module (Some 42) 4 10) 0)
           (rank_state (seeded_module (Some 42) 4 10) 1) 3 0).
  - reflexivity.
  - reflexivity.
  - reflexivity.
  - vm_compute. discriminate.
  - vm_compute. split; [discriminate | reflexivity].
  - vm_compute. split; [discriminate | reflexivity].
  - discriminate.
Defined.

(* ===================================================================== *)
(** ** More on numpy indexing *)
(* ===================================================================== *)

Lemma where_from_S {A} (f : A -> bool) (i : nat) (l : list A) :
  where_from f (S i) l = map S (where_from f i l).
Proof.
  revert i. induction l as [|a l IH]; intros i; simpl; [reflexivity|].
  destruct (f a); simpl; rewrite IH; reflexivity.
Qed.

Lemma np_take_shift {A} (a : A) (l : list A) (idx : list nat) :
  np_take (a :: l) (map S idx) = np_take l idx.
Proof.
  induction idx as [|i idx IH]; simpl; [reflexivity|].
  rewrite IH. reflexivity.
Qed.

Lemma np_take_app {A} (a : list A) (i1 i2 : list nat) (r1 r2 : list A) :
  np_take a i1 = Ok r1 -> np_take a i2 = Ok r2 ->
  np_take a (i1 ++ i2) = Ok (r1 ++ r2).
Proof.
  revert r1. induction i1 as [|i i1 IH]; simpl; intros r1 H1 H2.
  - injection H1 as <-. exact H2.
  - destruct (a !! i) as [r|]; [|discriminate].
    destruct (np_take a i1) as [rs|]; [|discriminate].
    injection H1 as <-. rewrite (IH rs eq_refl H2). reflexivity.
Qed.


(** Indexing an array with the positions [np.where] found in it filters
    it. *)
Lemma np_take_where {A} (f : A -> bool) (l : list A) :
  np_take l (np_where f l) = Ok (List.filter f l).
Proof.
  unfold np_where. induction l as [|a l IH]; simpl; [reflexivity|].
  destruct (f a); simpl.
  - rewrite where_from_S, np_take_shift, IH. reflexivity.
  - rewrite where_from_S, np_take_shift, IH. reflexivity.
Qed.

(** Indexing a second array of the same length with them selects the
    rows that go with the filtered ones. *)
Lemma np_take_where_zip {A B} (f : B -> bool) (x : list A) (y : list B) :
  length x = length y ->
  np_take x (np_where f y)
  = Ok (map fst (List.filter (fun r => f (snd r)) (zip x y))).
Proof.
  unfold np_where. revert x. induction y as [|b y IH]; intros x Hlen.
  - destruct x; reflexivity.
  - destruct x as [|a x]; [discriminate|]. simpl in Hlen.
    injection Hlen as Hlen. simpl.
    destruct (f b); simpl.
    + rewrite where_from_S, np_take_shift, IH by exact Hlen. reflexivity.
    + rewrite where_from_S, np_take_shift, IH by exact Hlen. reflexivity.
Qed.


(* ===================================================================== *)
(** ** More on the noise sampler: what is saved *)
(* ===================================================================== *)

Section NoiseLoopSteps.

Context {G : NumpyRandom}.

(** One iteration on an existing, well-formed event file, in terms of
    [subsample]. *)
Lemma noisy_event_step (p : Path) (ev : Event) (st : State) :
  files st !! p = Some ev ->
  event_wf ev ->
  (0 <= noise_level (self st))%Q ->
  let st' := snd (noisy_event p st) in
  fst (noisy_event p st) = Ok tt
  /\ self st' = self st
  /\ files st' = filter_step (self st) (files st) p
  /\ saved st'
     = saved st
       ++ match subsample (noise_seed (self st)) (noise_level (self st)) ev
          with
          | Some _ => [noisy_target (self st) p]
          | None => []
          end.
Proof.
  intros Hfile Hwf Hlevel. cbv zeta.
  destruct (noisy_event_run p ev st Hfile Hwf Hlevel)
    as (sel & xs & ys & r & Hsel & Hxs & Hys & Hrun).
  destruct (select_indices_run (ev_y ev) st Hlevel) as (sel' & Htake & Hrun').
  cbv zeta in *.
  rewrite Hrun' in Hsel. injection Hsel as Hsel _. subst sel'.
  split; [rewrite Hrun; reflexivity|].
  split; [apply keeps_self_noisy_event|].
  unfold filter_step, subsample. rewrite Hfile, Htake.
  rewrite Hrun. cbn [snd].
  destruct (np_where (fun r0 => negb (is_noise r0)) (ev_y ev) ++ sel)
    as [|i rest].
  - cbn [set_np_random files saved]. rewrite app_nil_r. split; reflexivity.
  - rewrite Hxs, Hys. cbn [write_file set_np_random files saved self].
    split; reflexivity.
Qed.


Lemma draw_size_level_zero (level : Q) (n : nat) :
  (level == 0)%Q -> draw_size level n = 0.
Proof.
  intros H. unfold draw_size, Py.int. destruct level as [a d].
  unfold Qeq in H. simpl in *.
  assert (a = 0) by lia. subst a. rewrite Z.mul_0_r. reflexivity.
Qed.

(** X15.  With noise_level == 0 and a noise seed that [np.random.seed]
    accepts, nothing is drawn: an iteration saves
    exactly the non-noise hits of the raw event, feature rows and label
    rows in their original order, and it saves nothing for an event
    without non-noise hits. *)
Theorem noise_level_zero_keeps_non_noise (p : Path) (ev : Event)
    (st : State) :
  valid_seed (noise_seed (self st)) ->
  files st !! p = Some ev ->
  event_wf ev ->
  (noise_level (self st) == 0)%Q ->
  let st' := snd (noisy_event p st) in
  let kept_y := List.filter (fun r => negb (is_noise r)) (ev_y ev) in
  let kept_x :=
    map fst (List.filter (fun r => negb (is_noise (snd r)))
               (zip (ev_x ev) (ev_y ev))) in
  fst (noisy_event p st) = Ok tt
  /\ (kept_y = [] -> files st' = files st /\ saved st' = saved st)
  /\ (kept_y <> [] ->
      files st'
      = <[(noisy_data_dir (self st), path_stem p) := mkEvent kept_x kept_y]>
          (files st)
      /\ saved st' = saved st ++ [(noisy_data_dir (self st), path_stem p)]).
Proof.
  intros _ Hfile Hwf Hzero. cbv zeta.
  assert (Hlevel : (0 <= noise_level (self st))%Q)
    by (rewrite Hzero; apply Qle_refl).
  destruct (noisy_event_step p ev st Hfile Hwf Hlevel)
    as (Hok & _ & Hfiles & Hsv).
  cbv zeta in *. split; [exact Hok|].
  rewrite Hfiles, Hsv. unfold filter_step. rewrite Hfile.
  unfold subsample.
  set (noise := np_where is_noise (ev_y ev)).
  set (nn := np_where (fun r => negb (is_noise r)) (ev_y ev)).
  assert (Hpos : drawn_positions (noise_seed (self st))
                   (noise_level (self st)) (length noise) = []).
  { pose proof (drawn_positions_length (noise_seed (self st))
                  (noise_level (self st)) (length noise)) as Hl.
    rewrite draw_size_level_zero in Hl by exact Hzero.
    destruct (drawn_positions _ _ _); [reflexivity | discriminate]. }
  rewrite Hpos. change (np_take noise []) with (@Ok (list nat) []).
  cbv beta match. rewrite app_nil_r.
  assert (Hx : np_take (ev_x ev) nn
               = Ok (map fst (List.filter (fun r => negb (is_noise (snd r)))
                                (zip (ev_x ev) (ev_y ev)))))
    by (apply (np_take_where_zip (fun r => negb (is_noise r))); exact Hwf).
  assert (Hy : np_take (ev_y ev) nn
               = Ok (List.filter (fun r => negb (is_noise r)) (ev_y ev)))
    by apply np_take_where.
  assert (Hnn : length nn
                = length (List.filter (fun r => negb (is_noise r)) (ev_y ev)))
    by apply np_where_length.
  destruct nn as [|i rest] eqn:Enn.
  - split.
    + intros _. rewrite app_nil_r. split; reflexivity.
    + intros Hne. exfalso. apply Hne.
      destruct (List.filter _ (ev_y ev)); [reflexivity | discriminate].
  - cbv beta match. rewrite Hx, Hy. split.
    + intros Hk. rewrite Hk in Hnn. discriminate.
    + intros _. split; reflexivity.
Qed.

End NoiseLoopSteps.


Lemma noise_level_zero_keeps_non_noise_witness :
  let st := example_state
              (example_module 1 (4 # 5) (1 # 10) 0 "0.0_noise" 31)
              {[ example_raw_path := example_event ]} 0 in
  let st' := snd (noisy_event example_raw_path st) in
  let kept_y :=
    List.filter (fun r => negb (is_noise r)) (ev_y example_event) in
  let kept_x :=
    map fst (List.filter (fun r => negb (is_noise (snd r)))
               (zip (ev_x example_event) (ev_y example_event))) in
  fst (noisy_event example_raw_path st) = Ok tt
  /\ (kept_y = [] -> files st' = files st /\ saved st' = saved st)
  /\ (kept_y <> [] ->
      files st'
      = <[(noisy_data_dir (self st), path_stem example_raw_path)
          := mkEvent kept_x kept_y]> (files st)
      /\ saved st'
         = saved st ++ [(noisy_data_dir (self st),
                         path_stem example_raw_path)]).
Proof.
  apply (noise_level_zero_keeps_non_noise example_raw_path example_event
           (@example_state mt19937
              (example_module 1 (4 # 5) (1 # 10) 0 "0.0_noise" 31)
              {[ example_raw_path := example_event ]} 0)).
  - vm_compute. split; discriminate.
  - vm_compute. reflexivity.
  - reflexivity.
  - reflexivity.
Defined.

(* ===================================================================== *)
(** ** More on the noise sampler: what a pass can touch *)
(* ===================================================================== *)

Section NoiseLoopFrame.

Context {G : NumpyRandom}.

Lemma writes_noisy_only_refl (st : State) : writes_noisy_only st st.
Proof.
  unfold writes_noisy_only. repeat split; auto.
  exists []. rewrite app_nil_r. split; [reflexivity | constructor].
Qed.

Lemma writes_noisy_only_trans (st1 st2 st3 : State) :
  writes_noisy_only st1 st2 -> writes_noisy_only st2 st3 ->
  writes_noisy_only st1 st3.
Proof.
  intros (Hd1 & Hf1 & He1 & w1 & Hs1 & Hw1) (Hd2 & Hf2 & He2 & w2 & Hs2 & Hw2).
  unfold writes_noisy_only. rewrite Hd1 in *.
  split; [exact Hd2|]. split; [|split].
  - intros q Hq. rewrite Hf2 by exact Hq. apply Hf1. exact Hq.
  - intros q Hq. apply He2, He1. exact Hq.
  - exists (w1 ++ w2). split.
    + rewrite Hs2, Hs1, app_assoc. reflexivity.
    + apply Forall_app. split; assumption.
Qed.

Lemma respects_ret {A} (a : A) : respects writes_noisy_only (ret a).
Proof. intros st. apply writes_noisy_only_refl. Qed.

Lemma respects_raise {A} (e : Exception) :
  respects writes_noisy_only (@raise G A e).
Proof. intros st. apply writes_noisy_only_refl. Qed.

Lemma respects_lift {A} (r : Result A) : respects writes_noisy_only (lift r).
Proof. intros st. apply writes_noisy_only_refl. Qed.

Lemma respects_get : respects writes_noisy_only get.
Proof. intros st. apply writes_noisy_only_refl. Qed.

Lemma respects_bind {A B} (m : M A) (k : A -> M B) :
  respects writes_noisy_only m ->
  (forall a, respects writes_noisy_only (k a)) ->
  respects writes_noisy_only (m ≫= k).
Proof.
  intros Hm Hk st. unfold mbind, M_bind, bind.
  specialize (Hm st). destruct (m st) as [[a|e] st1]; cbn [snd] in *.
  - eapply writes_noisy_only_trans; [exact Hm | apply Hk].
  - exact Hm.
Qed.

(** A change that leaves the files, the save trace and the noisy
    directory alone. *)
Lemma respects_modify (f : State -> State) :
  (forall st, noisy_data_dir (self (f st)) = noisy_data_dir (self st)
              /\ files (f st) = files st /\ saved (f st) = saved st) ->
  respects writes_noisy_only (modify f).
Proof.
  intros Hf st. destruct (Hf st) as (Hd & Hfs & Hs).
  unfold modify, writes_noisy_only. cbn [snd].
  rewrite Hd, Hfs, Hs. repeat split; auto.
  exists []. rewrite app_nil_r. split; [reflexivity | constructor].
Qed.

Lemma respects_for_each {A} (l : list A) (body : A -> M unit) :
  (forall a, respects writes_noisy_only (body a)) ->
  respects writes_noisy_only (for_each l body).
Proof.
  intros Hbody. induction l as [|a l IH]; simpl.
  - apply respects_ret.
  - apply respects_bind; [apply Hbody | intros _; exact IH].
Qed.

Lemma respects_np_load (p : Path) : respects writes_noisy_only (np_load p).
Proof.
  unfold np_load. apply respects_bind; [apply respects_get|].
  intros st. destruct (files st !! p);
    [apply respects_ret | apply respects_raise].
Qed.

Lemma respects_choice (a : list nat) (size : Z) :
  respects writes_noisy_only (np_random_choice a size).
Proof.
  unfold np_random_choice.
  destruct (size <? 0); [apply respects_raise|].
  destruct ((length a =? 0)%nat && negb (size =? 0)); [apply respects_raise|].
  apply respects_bind; [apply respects_get|]. intros st.
  destruct (random_randint (length a) (Z.to_nat size) (np_random st)).
  apply respects_bind; [|intros _; apply respects_lift].
  apply respects_modify. intros st0. repeat split; reflexivity.
Qed.

Lemma respects_select_indices (y : list (Z * Z)) :
  respects writes_noisy_only (select_indices y).
Proof.
  unfold select_indices.
  apply respects_bind; [apply respects_get|]. intros st.
  apply respects_bind.
  { unfold np_random_seed. apply respects_modify.
    intros st0. repeat split; reflexivity. }
  intros _. apply respects_bind; [apply respects_choice|].
  intros sel. apply respects_ret.
Qed.

(** The save of the loop body goes to the noisy directory of [self]. *)
Lemma respects_save (stem : string) (x : list Hit) (y : list (Z * Z)) :
  respects writes_noisy_only
    (get ≫= fun st => np_savez (noisy_data_dir (self st), stem) x y).
Proof.
  intros st. unfold mbind, M_bind, bind, get, np_savez, modify.
  cbn [fst snd]. unfold writes_noisy_only.
  cbn [write_file self files saved].
  split; [reflexivity|]. split; [|split].
  - intros q Hq. apply lookup_insert_ne. intros <-. apply Hq. reflexivity.
  - intros q Hq.
    destruct (decide ((noisy_data_dir (self st), stem) = q)) as [<-|Hne].
    + rewrite lookup_insert_eq. eauto.
    + rewrite lookup_insert_ne by exact Hne. exact Hq.
  - eexists. split; [reflexivity|]. repeat constructor.
Qed.

Lemma respects_noisy_event (p : Path) :
  respects writes_noisy_only (noisy_event p).
Proof.
  unfold noisy_event.
  apply respects_bind; [apply respects_np_load|]. intros ev.
  apply respects_bind; [apply respects_select_indices|]. intros sel.
  destruct (0 <? Py.len (fst sel ++ snd sel)); [|apply respects_ret].
  apply respects_bind; [apply respects_lift|]. intros xs.
  apply respects_bind; [apply respects_lift|]. intros ys.
  apply respects_save.
Qed.

Lemma respects_raw_events : respects writes_noisy_only raw_events.
Proof.
  unfold raw_events. apply respects_bind; [apply respects_get|]. intros st.
  destruct (_raw_events (self st)); [apply respects_ret|].
  apply respects_bind; [|intros _; apply respects_ret].
  apply respects_modify. intros st0. repeat split; reflexivity.
Qed.

Lemma make_noisy_data_frame (st : State) :
  let st' := snd (make_noisy_data st) in
  noisy_data_dir (self st') = noisy_data_dir (self st)
  /\ (forall q, fst q <> noisy_data_dir (self st) ->
                files st' !! q = files st !! q)
  /\ (forall q, is_Some (files st !! q) -> is_Some (files st' !! q))
  /\ exists w, saved st' = saved st ++ w
               /\ Forall (fun q => fst q = noisy_data_dir (self st)) w.
Proof.
  cbv zeta. change (writes_noisy_only st (snd (make_noisy_data st))).
  revert st. change (respects writes_noisy_only make_noisy_data).
  unfold make_noisy_data.
  apply respects_bind; [apply respects_get|]. intros st.
  destruct (Qeq_bool (noise_level (self st)) 1); [apply respects_ret|].
  apply respects_bind.
  { unfold logging_info. apply respects_modify.
    intros st0. repeat split; reflexivity. }
  intros _. apply respects_bind; [apply respects_raw_events|].
  intros evs. apply respects_for_each. apply respects_noisy_event.
Qed.

(** X16.  Whatever the state and however the call ends, normally or with
    an exception, [make_noisy_data] writes into the noisy directory only:
    every file outside it keeps its content, no file disappears, every
    [np.savez] it makes goes to the noisy directory, and earlier entries
    of the save trace stay. *)
Theorem make_noisy_data_writes_noisy_only (st : State) :
  let st' := snd (make_noisy_data st) in
  noisy_data_dir (self st') = noisy_data_dir (self st)
  /\ (forall q, fst q <> noisy_data_dir (self st) ->
                files st' !! q = files st !! q)
  /\ (forall q, is_Some (files st !! q) -> is_Some (files st' !! q))
  /\ exists w, saved st' = saved st ++ w
               /\ Forall (fun q => fst q = noisy_data_dir (self st)) w.
Proof.
  cbv zeta. change (writes_noisy_only st (snd (make_noisy_data st))).
  unfold make_noisy_data.
  apply respects_bind; [apply respects_get|]. intros st0.
  destruct (Qeq_bool (noise_level (self st0)) 1); [apply respects_ret|].
  apply respects_bind.
  { unfold logging_info. apply respects_modify.
    intros s. repeat split; reflexivity. }
  intros _. apply respects_bind; [apply respects_raw_events|].
  intros evs. apply respects_for_each. apply respects_noisy_event.
Qed.

End NoiseLoopFrame.

(* ===================================================================== *)
(** ** More on the noise sampler: a whole pass *)
(* ===================================================================== *)

Lemma lookup_apply_writes (w : list (Path * Event)) (fs : gmap Path Event)
    (k : Path) :
  apply_writes w fs !! k
  = match last_write k w with
    | Some ev => Some ev
    | None => fs !! k
    end.
Proof.
  unfold apply_writes. revert fs.
  induction w as [|[k' v] w IH]; intros fs; simpl; [reflexivity|].
  rewrite IH. destruct (last_write k w); [reflexivity|].
  destruct (decide _) as [Heq|Hne]; simpl in *.
  - subst k'. apply lookup_insert_eq.
  - apply lookup_insert_ne. exact Hne.
Qed.

(** Making the same writes a second time changes nothing. *)
Lemma apply_writes_twice (w : list (Path * Event)) (fs : gmap Path Event) :
  apply_writes w (apply_writes w fs) = apply_writes w fs.
Proof.
  apply map_eq. intros k. rewrite !lookup_apply_writes.
  destruct (last_write k w); reflexivity.
Qed.

Lemma last_write_other_dir (w : list (Path * Event)) (dir : string)
    (k : Path) :
  Forall (fun kv => fst (fst kv) = dir) w -> fst k <> dir ->
  last_write k w = None.
Proof.
  induction 1 as [|[k' v] w Hk _ IH]; intros Hne; simpl; [reflexivity|].
  rewrite IH by exact Hne. simpl in Hk.
  destruct (decide _) as [Heq|]; [|reflexivity].
  simpl in Heq. subst k'. contradiction.
Qed.

Section NoiseLoopRun.

Context {G : NumpyRandom}.

Lemma writes_of_cons (m : HGCalDataModule) (fs : gmap Path Event)
    (p : Path) (l : list Path) :
  writes_of m fs (p :: l)
  = match fs !! p with
    | Some ev =>
        match subsample (noise_seed m) (noise_level m) ev with
        | Some ev' => (noisy_target m p, ev') :: writes_of m fs l
        | None => writes_of m fs l
        end
    | None => writes_of m fs l
    end.
Proof.
  unfold writes_of. cbn. destruct (fs !! p) as [ev|]; [|reflexivity].
  destruct (subsample (noise_seed m) (noise_level m) ev); reflexivity.
Qed.

Lemma writes_of_keys (m : HGCalDataModule) (fs : gmap Path Event)
    (l : list Path) :
  Forall (fun kv => fst (fst kv) = noisy_data_dir m) (writes_of m fs l).
Proof.
  induction l as [|p l IH]; [constructor|].
  rewrite writes_of_cons.
  destruct (fs !! p) as [ev|]; [|exact IH].
  destruct (subsample (noise_seed m) (noise_level m) ev); [|exact IH].
  constructor; [reflexivity | exact IH].
Qed.

Lemma filter_step_lookup_ne (m : HGCalDataModule) (fs : gmap Path Event)
    (p q : Path) :
  fst q <> noisy_data_dir m -> filter_step m fs p !! q = fs !! q.
Proof.
  intros Hq. unfold filter_step.
  destruct (fs !! p) as [ev|]; [|reflexivity].
  destruct (subsample (noise_seed m) (noise_level m) ev); [|reflexivity].
  apply lookup_insert_ne. unfold noisy_target. intros <-. apply Hq.
  reflexivity.
Qed.

(** A pass over raw paths outside the noisy directory makes the writes
    that can be read off the files it started from. *)
Lemma fold_filter_as_writes (m : HGCalDataModule) (fs : gmap Path Event)
    (l : list Path) (acc : gmap Path Event) :
  (forall q : Path, fst q <> noisy_data_dir m -> acc !! q = fs !! q) ->
  Forall (fun p : Path => fst p <> noisy_data_dir m) l ->
  fold_left (filter_step m) l acc = apply_writes (writes_of m fs l) acc.
Proof.
  intros Hagree Hl. revert acc Hagree.
  induction Hl as [|p l Hp _ IH]; intros acc Hagree; [reflexivity|].
  cbn [fold_left]. rewrite IH.
  - rewrite writes_of_cons. unfold filter_step. rewrite (Hagree p Hp).
    destruct (fs !! p) as [ev|]; [|reflexivity].
    destruct (subsample (noise_seed m) (noise_level m) ev); reflexivity.
  - intros q Hq. rewrite filter_step_lookup_ne by exact Hq.
    apply Hagree. exact Hq.
Qed.

Lemma fold_filter_twice (m : HGCalDataModule) (fs : gmap Path Event)
    (l : list Path) :
  Forall (fun p : Path => fst p <> noisy_data_dir m) l ->
  fold_left (filter_step m) l (fold_left (filter_step m) l fs)
  = fold_left (filter_step m) l fs.
Proof.
  intros Hl.
  rewrite (fold_filter_as_writes m fs l fs) by auto.
  rewrite (fold_filter_as_writes m fs l (apply_writes (writes_of m fs l) fs)).
  - apply apply_writes_twice.
  - intros q Hq. rewrite lookup_apply_writes.
    rewrite (last_write_other_dir _ (noisy_data_dir m)); auto.
    apply writes_of_keys.
  - exact Hl.
Qed.

Lemma filter_step_ext (m1 m2 : HGCalDataModule) (fs : gmap Path Event)
    (p : Path) :
  noise_seed m1 = noise_seed m2 ->
  noise_level m1 = noise_level m2 ->
  noisy_data_dir m1 = noisy_data_dir m2 ->
  filter_step m1 fs p = filter_step m2 fs p.
Proof.
  intros H1 H2 H3. unfold filter_step, noisy_target.
  rewrite H1, H2, H3. reflexivity.
Qed.

Lemma fold_filter_ext (m1 m2 : HGCalDataModule) (l : list Path)
    (fs : gmap Path Event) :
  noise_seed m1 = noise_seed m2 ->
  noise_level m1 = noise_level m2 ->
  noisy_data_dir m1 = noisy_data_dir m2 ->
  fold_left (filter_step m1) l fs = fold_left (filter_step m2) l fs.
Proof.
  intros H1 H2 H3. revert fs.
  induction l as [|p l IH]; intros fs; [reflexivity|].
  cbn [fold_left]. rewrite (filter_step_ext m1 m2) by assumption. apply IH.
Qed.

Lemma for_each_app {A} (l1 l2 : list A) (body : A -> M unit) (st : State) :
  for_each (l1 ++ l2) body st
  = match for_each l1 body st with
    | (Ok _, st1) => for_each l2 body st1
    | (Raise e, st1) => (Raise e, st1)
    end.
Proof.
  revert st. induction l1 as [|a l1 IH]; intros st; [reflexivity|].
  cbn [app for_each]. unfold mbind, M_bind, bind.
  destruct (body a st) as [[[]|e] st1]; [apply IH | reflexivity].
Qed.

(** The loop over processable raw events. *)
Lemma for_each_noisy_run (l : list Path) (st : State) :
  (0 <= noise_level (self st))%Q ->
  Forall (processable (self st) (files st)) l ->
  let st' := snd (for_each l noisy_event st) in
  fst (for_each l noisy_event st) = Ok tt
  /\ self st' = self st
  /\ files st' = fold_left (filter_step (self st)) l (files st).
Proof.
  revert st. induction l as [|p l IH]; intros st Hlevel Hl; cbv zeta.
  - repeat split; reflexivity.
  - inversion Hl as [|? ? (Hdir & ev & Hfile & Hwf) Hrest]; subst.
    destruct (noisy_event_step p ev st Hfile Hwf Hlevel)
      as (Hok & Hself & Hfiles & _).
    cbv zeta in *.
    cbn [for_each]. unfold mbind, M_bind, bind.
    destruct (noisy_event p st) as [r st1]. cbn [fst snd] in *. subst r.
    assert (Hlevel1 : (0 <= noise_level (self st1))%Q)
      by (rewrite Hself; exact Hlevel).
    assert (Hl1 : Forall (processable (self st1) (files st1)) l).
    { rewrite Hself, Hfiles. eapply Forall_impl; [exact Hrest|].
      cbv beta. intros q (Hq & evq & Hevq & Hwfq).
      split; [exact Hq|]. exists evq. split; [|exact Hwfq].
      rewrite filter_step_lookup_ne by exact Hq. exact Hevq. }
    destruct (IH st1 Hlevel1 Hl1) as (Hok' & Hself' & Hfiles').
    cbv zeta in *.
    split; [exact Hok'|]. split; [rewrite Hself'; exact Hself|].
    rewrite Hfiles', Hself, Hfiles. reflexivity.
Qed.

Lemma noisy_event_logged (p : Path) (st : State) :
  logged (snd (noisy_event p st)) = logged st.
Proof.
  unfold noisy_event, np_load, select_indices, np_random_choice.
  unfold mbind, M_bind, bind, get, np_random_seed, modify, lift, ret,
    raise, np_savez.
  cbn [fst snd].
  destruct (files st !! p) as [ev|]; [|reflexivity]. cbn [fst snd].
  destruct (_ <? 0); [reflexivity|].
  destruct (_ && _); [reflexivity|].
  cbn [set_np_random np_random].
  destruct (random_randint _ _ _) as [idx r]. cbn [fst snd].
  destruct (np_take _ idx) as [sel|]; [|reflexivity]. cbn [fst snd].
  destruct (0 <? _); [|reflexivity].
  destruct (np_take (ev_x ev) _); [|reflexivity]. cbn [fst snd].
  destruct (np_take (ev_y ev) _); reflexivity.
Qed.

Lemma for_each_noisy_logged (l : list Path) (st : State) :
  logged (snd (for_each l noisy_event st)) = logged st.
Proof.
  revert st. induction l as [|p l IH]; intros st; [reflexivity|].
  cbn [for_each]. unfold mbind, M_bind, bind.
  pose proof (noisy_event_logged p st) as Hp.
  destruct (noisy_event p st) as [[[]|e] s1]; cbn [snd] in *;
    [rewrite IH; exact Hp | exact Hp].
Qed.

(** Past the guard, a pass is the loop over the raw listing, run from the
    state in which the message is logged and the listing cached. *)
Lemma make_noisy_data_loop (st : State) :
  Qeq_bool (noise_level (self st)) 1 = false ->
  exists s,
    self s = with_raw_events (Some (raw_listing st)) (self st)
    /\ files s = files st
    /\ saved s = saved st
    /\ logged s
       = logged st
         ++ [LogInfo ("Saving noisy data to " +:+ noisy_data_dir (self st)
                      +:+ ".")]
    /\ make_noisy_data st = for_each (raw_listing st) noisy_event s.
Proof.
  intros Hguard.
  unfold make_noisy_data, mbind, M_bind, bind, get, logging_info, modify.
  cbn [fst snd]. rewrite Hguard.
  unfold raw_events, mbind, M_bind, bind, get, modify, ret. cbn [fst snd].
  cbn [add_log self files]. unfold raw_listing.
  destruct (_raw_events (self st)) as [l0|] eqn:Hcache.
  - eexists. split; [|split; [|split; [|split; [|reflexivity]]]];
      try reflexivity.
    cbn [add_log self]. destruct (self st). cbn in *.
    rewrite Hcache. reflexivity.
  - cbn [fst snd]. eexists.
    split; [|split; [|split; [|split; [|reflexivity]]]]; reflexivity.
Qed.

Lemma make_noisy_data_run (st : State) :
  Qeq_bool (noise_level (self st)) 1 = false ->
  (0 <= noise_level (self st))%Q ->
  Forall (processable (self st) (files st)) (raw_listing st) ->
  let st' := snd (make_noisy_data st) in
  fst (make_noisy_data st) = Ok tt
  /\ files st'
     = fold_left (filter_step (self st)) (raw_listing st) (files st)
  /\ self st' = with_raw_events (Some (raw_listing st)) (self st)
  /\ logged st'
     = logged st
       ++ [LogInfo ("Saving noisy data to " +:+ noisy_data_dir (self st)
                    +:+ ".")].
Proof.
  intros Hguard Hlevel Hl. cbv zeta.
  destruct (make_noisy_data_loop st Hguard)
    as (s & Hs & Hf & _ & Hlg & ->).
  assert (Hlv : (0 <= noise_level (self s))%Q) by (rewrite Hs; exact Hlevel).
  assert (Hpr : Forall (processable (self s) (files s)) (raw_listing st)).
  { rewrite Hs, Hf. exact Hl. }
  destruct (for_each_noisy_run _ s Hlv Hpr) as (Hok & Hself & Hfiles).
  cbv zeta in *. split; [exact Hok|].
  split; [rewrite Hfiles, Hf; apply fold_filter_ext; rewrite Hs; reflexivity|].
  split; [rewrite Hself; exact Hs|].
  rewrite for_each_noisy_logged. exact Hlg.
Qed.

(** X17.  A pass over processable raw events (existing, well-formed
    event files outside the noisy directory) at a non-negative noise
    level other than 1.0, with a noise seed that [np.random.seed]
    accepts, returns normally, logs its one message, caches
    the raw listing, and leaves the files obtained by saving, for each
    listed path in order, the sub-sampled event of that path. *)
Theorem make_noisy_data_pass (st : State) :
  valid_seed (noise_seed (self st)) ->
  Qeq_bool (noise_level (self st)) 1 = false ->
  (0 <= noise_level (self st))%Q ->
  Forall (processable (self st) (files st)) (raw_listing st) ->
  let st' := snd (make_noisy_data st) in
  fst (make_noisy_data st) = Ok tt
  /\ files st'
     = fold_left (filter_step (self st)) (raw_listing st) (files st)
  /\ _raw_events (self st') = Some (raw_listing st)
  /\ logged st'
     = logged st
       ++ [LogInfo ("Saving noisy data to " +:+ noisy_data_dir (self st)
                    +:+ ".")].
Proof.
  intros _ Hguard Hlevel Hl. cbv zeta.
  destruct (make_noisy_data_run st Hguard Hlevel Hl) as (H1 & H2 & H3 & H4).
  cbv zeta in *. split; [exact H1|]. split; [exact H2|].
  split; [rewrite H3; reflexivity | exact H4].
Qed.

(** X18.  A pass is repeatable: run again right after a pass over
    processable raw events (noise seed in numpy's range, level
    non-negative and not 1.0), [make_noisy_data] returns normally and leaves
    every file as the first pass left it (each event is sub-sampled from
    the freshly seeded generator, so the same rows are written again). *)
Theorem make_noisy_data_twice (st : State) :
  valid_seed (noise_seed (self st)) ->
  Qeq_bool (noise_level (self st)) 1 = false ->
  (0 <= noise_level (self st))%Q ->
  Forall (processable (self st) (files st)) (raw_listing st) ->
  let st1 := snd (make_noisy_data st) in
  let st2 := snd (make_noisy_data st1) in
  fst (make_noisy_data st1) = Ok tt
  /\ files st2 = files st1
  /\ self st2 = self st1.
Proof.
  intros _ Hguard Hlevel Hl. cbv zeta.
  destruct (make_noisy_data_run st Hguard Hlevel Hl)
    as (_ & Hfiles & Hself & _).
  destruct (make_noisy_data_frame st) as (_ & Hframe & _).
  cbv zeta in *.
  set (st1 := snd (make_noisy_data st)) in *.
  set (l := raw_listing st) in *.
  assert (Hl1 : raw_listing st1 = l).
  { unfold raw_listing. rewrite Hself. reflexivity. }
  assert (Hguard1 : Qeq_bool (noise_level (self st1)) 1 = false)
    by (rewrite Hself; exact Hguard).
  assert (Hlevel1 : (0 <= noise_level (self st1))%Q)
    by (rewrite Hself; exact Hlevel).
  assert (Hdirs : Forall (fun p : Path => fst p <> noisy_data_dir (self st)) l).
  { eapply Forall_impl; [exact Hl|]. cbv beta. intros q [Hq _]. exact Hq. }
  assert (Hpr1 : Forall (processable (self st1) (files st1)) (raw_listing st1)).
  { rewrite Hl1. eapply Forall_impl; [exact Hl|]. cbv beta.
    intros q (Hq & ev & Hev & Hwf). split; [rewrite Hself; exact Hq|].
    exists ev. split; [|exact Hwf]. rewrite Hframe by exact Hq. exact Hev. }
  destruct (make_noisy_data_run st1 Hguard1 Hlevel1 Hpr1)
    as (Hok2 & Hfiles2 & Hself2 & _).
  cbv zeta in *. split; [exact Hok2|]. split.
  - rewrite Hfiles2, Hl1, Hfiles.
    rewrite (fold_filter_ext (self st1) (self st))
      by (rewrite Hself; reflexivity).
    apply fold_filter_twice. exact Hdirs.
  - rewrite Hself2, Hl1, Hself. reflexivity.
Qed.

(** X19.  A listed raw file that is gone stops the pass: when the events
    before it are processable (noise seed in numpy's range, level
    non-negative and not 1.0) and its file does not exist, the call
    raises FileNotFoundError; the sub-samples of the earlier events stay
    on disk and no later event is processed. *)
Theorem make_noisy_data_missing_file (st : State) (l1 l2 : list Path)
    (p : Path) :
  valid_seed (noise_seed (self st)) ->
  Qeq_bool (noise_level (self st)) 1 = false ->
  (0 <= noise_level (self st))%Q ->
  raw_listing st = l1 ++ p :: l2 ->
  Forall (processable (self st) (files st)) l1 ->
  fst p <> noisy_data_dir (self st) ->
  files st !! p = None ->
  let st' := snd (make_noisy_data st) in
  fst (make_noisy_data st) = Raise FileNotFoundError
  /\ files st' = fold_left (filter_step (self st)) l1 (files st).
Proof.
  intros _ Hguard Hlevel Hlist Hl1 Hp Hgone. cbv zeta.
  destruct (make_noisy_data_loop st Hguard)
    as (s & Hs & Hf & _ & _ & ->).
  rewrite Hlist, for_each_app.
  assert (Hlv : (0 <= noise_level (self s))%Q) by (rewrite Hs; exact Hlevel).
  assert (Hpr : Forall (processable (self s) (files s)) l1).
  { rewrite Hs, Hf. exact Hl1. }
  destruct (for_each_noisy_run l1 s Hlv Hpr) as (Hok & Hself & Hfiles).
  cbv zeta in *.
  destruct (for_each l1 noisy_event s) as [r s1]. cbn [fst snd] in *.
  subst r.
  assert (Hgone1 : files s1 !! p = None).
  { rewrite Hfiles.
    rewrite (fold_filter_as_writes (self s) (files s) l1 (files s)); auto.
    - rewrite lookup_apply_writes.
      rewrite (last_write_other_dir _ (noisy_data_dir (self s)));
        [rewrite Hf; exact Hgone | apply writes_of_keys
         | rewrite Hs; exact Hp].
    - eapply Forall_impl; [exact Hpr|]. cbv beta. intros q [Hq _]. exact Hq. }
  assert (Hraise : noisy_event p s1 = (Raise FileNotFoundError, s1)).
  { unfold noisy_event, np_load, mbind, M_bind, bind, get.
    cbn [fst snd]. rewrite Hgone1. reflexivity. }
  cbn [for_each]. unfold mbind, M_bind, bind. rewrite Hraise.
  cbn [fst snd]. split; [reflexivity|].
  rewrite Hfiles, Hf. apply fold_filter_ext; rewrite Hs; reflexivity.
Qed.

Lemma last_write_writes_of (m : HGCalDataModule) (fs : gmap Path Event)
    (l : list Path) (rd stem : string) :
  Forall (fun p : Path => fst p = rd) l ->
  last_write (noisy_data_dir m, stem) (writes_of m fs l)
  = if decide ((rd, stem) ∈ l) then
      match fs !! ((rd, stem) : Path) with
      | Some ev => subsample (noise_seed m) (noise_level m) ev
      | None => None
      end
    else None.
Proof.
  induction 1 as [|[d s'] l Hd _ IH]; [reflexivity|].
  simpl in Hd. subst d. rewrite writes_of_cons.
  destruct (decide (s' = stem)) as [->|Hne].
  - rewrite decide_True by apply list_elem_of_here.
    destruct (fs !! ((rd, stem) : Path)) as [ev|] eqn:Hev.
    + destruct (subsample (noise_seed m) (noise_level m) ev) as [ev'|]
        eqn:Hsub.
      * cbn [last_write]. rewrite IH.
        destruct (decide ((rd, stem) ∈ l)); [reflexivity|].
        unfold noisy_target. cbn [fst snd path_stem].
        rewrite decide_True by reflexivity. reflexivity.
      * rewrite IH. destruct (decide ((rd, stem) ∈ l)); reflexivity.
    + rewrite IH. destruct (decide ((rd, stem) ∈ l)); reflexivity.
  - assert (Hiff : (rd, stem) ∈ (rd, s') :: l <-> (rd, stem) ∈ l).
    { rewrite elem_of_cons. split; [intros [H|H]; [congruence | exact H]|].
      intros H. right. exact H. }
    assert (Hlw : forall w ev',
               last_write (noisy_data_dir m, stem)
                 ((noisy_target m (rd, s'), ev') :: w)
               = last_write (noisy_data_dir m, stem) w).
    { intros w ev'. cbn [last_write].
      destruct (last_write (noisy_data_dir m, stem) w); [reflexivity|].
      unfold noisy_target. cbn [fst snd path_stem].
      rewrite decide_False by congruence. reflexivity. }
    rewrite (decide_ext _ _ _ _ Hiff).
    destruct (fs !! ((rd, s') : Path)) as [ev|]; [|exact IH].
    destruct (subsample (noise_seed m) (noise_level m) ev); [|exact IH].
    rewrite Hlw. exact IH.
Qed.

Lemma first_pass_processable (st : State) :
  _raw_events (self st) = None ->
  raw_data_dir (self st) <> noisy_data_dir (self st) ->
  (forall stem ev, files st !! ((raw_data_dir (self st), stem) : Path)
                   = Some ev -> event_wf ev) ->
  Forall (fun p : Path => fst p = raw_data_dir (self st)) (raw_listing st)
  /\ Forall (processable (self st) (files st)) (raw_listing st).
Proof.
  intros Hcache Hdirs Hwf.
  assert (Hlist : raw_listing st
                  = sorted_glob (raw_data_dir (self st)) (files st))
    by (unfold raw_listing; rewrite Hcache; reflexivity).
  rewrite Hlist. split.
  - apply List.Forall_forall. intros q Hq. apply sorted_glob_In in Hq. tauto.
  - apply List.Forall_forall. intros [d stem] Hq.
    apply sorted_glob_In in Hq as [Hd (ev & Hev)]. simpl in Hd. subst d.
    split; [exact Hdirs|]. exists ev. split; [exact Hev|].
    eapply Hwf. exact Hev.
Qed.

Lemma first_pass_lookup (st : State) (stem : string) :
  _raw_events (self st) = None ->
  raw_data_dir (self st) <> noisy_data_dir (self st) ->
  Qeq_bool (noise_level (self st)) 1 = false ->
  (0 <= noise_level (self st))%Q ->
  (forall stem ev, files st !! ((raw_data_dir (self st), stem) : Path)
                   = Some ev -> event_wf ev) ->
  files (snd (make_noisy_data st)) !! ((noisy_data_dir (self st), stem) : Path)
  = match files st !! ((raw_data_dir (self st), stem) : Path) with
    | Some ev =>
        match subsample (noise_seed (self st)) (noise_level (self st)) ev with
        | Some ev' => Some ev'
        | None => files st !! ((noisy_data_dir (self st), stem) : Path)
        end
    | None => files st !! ((noisy_data_dir (self st), stem) : Path)
    end.
Proof.
  intros Hcache Hdirs Hguard Hlevel Hwf.
  destruct (first_pass_processable st Hcache Hdirs Hwf) as [Hraw Hl].
  destruct (make_noisy_data_run st Hguard Hlevel Hl) as (_ & Hfiles & _).
  cbv zeta in *. rewrite Hfiles.
  rewrite (fold_filter_as_writes (self st) (files st) _ (files st)); auto.
  - rewrite lookup_apply_writes.
    rewrite (last_write_writes_of _ _ _ (raw_data_dir (self st)))
      by exact Hraw.
    destruct (decide ((raw_data_dir (self st), stem) ∈ raw_listing st))
      as [Hmem|Hmem].
    + destruct (files st !! ((raw_data_dir (self st), stem) : Path)) as [ev|];
        [|reflexivity].
      destruct (subsample _ _ ev); reflexivity.
    + destruct (files st !! ((raw_data_dir (self st), stem) : Path))
        as [ev|] eqn:Hev; [|reflexivity].
      exfalso. apply Hmem. unfold raw_listing. rewrite Hcache.
      apply list_elem_of_In, sorted_glob_In.
      split; [reflexivity | eauto].
  - eapply Forall_impl; [exact Hl|]. cbv beta. intros q [Hq _]. exact Hq.
Qed.

(** X20.  What the noisy directory holds after the first pass of a
    module (no raw listing cached yet; raw and noisy directory distinct;
    raw event files well formed; noise seed in numpy's range; level
    non-negative and not 1.0): under
    each stem, the sub-sampled event of the raw event of that stem if
    there is one and its selection is non-empty, and otherwise whatever
    was there before.  Nothing outside the noisy directory changes. *)
Theorem make_noisy_data_first_pass (st : State) :
  valid_seed (noise_seed (self st)) ->
  _raw_events (self st) = None ->
  raw_data_dir (self st) <> noisy_data_dir (self st) ->
  Qeq_bool (noise_level (self st)) 1 = false ->
  (0 <= noise_level (self st))%Q ->
  (forall stem ev, files st !! ((raw_data_dir (self st), stem) : Path) = Some ev ->
                   event_wf ev) ->
  let st' := snd (make_noisy_data st) in
  fst (make_noisy_data st) = Ok tt
  /\ (forall stem,
        files st' !! ((noisy_data_dir (self st), stem) : Path)
        = match files st !! ((raw_data_dir (self st), stem) : Path) with
          | Some ev =>
              match subsample (noise_seed (self st))
                      (noise_level (self st)) ev with
              | Some ev' => Some ev'
              | None => files st !! ((noisy_data_dir (self st), stem) : Path)
              end
          | None => files st !! ((noisy_data_dir (self st), stem) : Path)
          end)
  /\ (forall q, fst q <> noisy_data_dir (self st) ->
                files st' !! q = files st !! q).
Proof.
  intros _ Hcache Hdirs Hguard Hlevel Hwf. cbv zeta.
  destruct (first_pass_processable st Hcache Hdirs Hwf) as [_ Hl].
  destruct (make_noisy_data_run st Hguard Hlevel Hl) as (Hok & _).
  destruct (make_noisy_data_frame st) as (_ & Hframe & _).
  split; [exact Hok|]. split; [|exact Hframe].
  intros stem. apply first_pass_lookup; assumption.
Qed.

End NoiseLoopRun.

(* ===================================================================== *)
(** ** A pass on the concrete raw event *)
(* ===================================================================== *)

Lemma noisy_state_listing : raw_listing noisy_state = [example_raw_path].
Proof. vm_compute. reflexivity. Defined.

Lemma noisy_state_processable :
  Forall (processable (self noisy_state) (files noisy_state))
         (raw_listing noisy_state).
Proof.
  rewrite noisy_state_listing. constructor; [|constructor].
  split; [vm_compute; discriminate|].
  exists example_event. split; [vm_compute; reflexivity | reflexivity].
Defined.

Lemma make_noisy_data_pass_witness :
  let st' := snd (make_noisy_data noisy_state) in
  fst (make_noisy_data noisy_state) = Ok tt
  /\ files st'
     = fold_left (filter_step (self noisy_state)) (raw_listing noisy_state)
         (files noisy_state)
  /\ _raw_events (self st') = Some (raw_listing noisy_state)
  /\ logged st'
     = logged noisy_state
       ++ [LogInfo ("Saving noisy data to "
                    +:+ noisy_data_dir (self noisy_state) +:+ ".")].
Proof.
  apply (make_noisy_data_pass noisy_state).
  - vm_compute. split; discriminate.
  - reflexivity.
  - vm_compute. discriminate.
  - exact noisy_state_processable.
Defined.

Lemma make_noisy_data_twice_witness :
  let st1 := snd (make_noisy_data noisy_state) in
  let st2 := snd (make_noisy_data st1) in
  fst (make_noisy_data st1) = Ok tt
  /\ files st2 = files st1
  /\ self st2 = self st1.
Proof.
  apply (make_noisy_data_twice noisy_state).
  - vm_compute. split; discriminate.
  - reflexivity.
  - vm_compute. discriminate.
  - exact noisy_state_processable.
Defined.

Lemma make_noisy_data_missing_file_witness :
  let st' := snd (make_noisy_data stale_state) in
  fst (make_noisy_data stale_state) = Raise FileNotFoundError
  /\ files st'
     = fold_left (filter_step (self stale_state)) [example_raw_path]
         (files stale_state).
Proof.
  apply (make_noisy_data_missing_file stale_state [example_raw_path] []
           ("data/1.0_noise", "event_9")).
  - vm_compute. split; discriminate.
  - reflexivity.
  - vm_compute. discriminate.
  - reflexivity.
  - constructor; [|constructor].
    split; [vm_compute; discriminate|].
    exists example_event. split; [vm_compute; reflexivity | reflexivity].
  - vm_compute. discriminate.
  - vm_compute. reflexivity.
Defined.

Lemma make_noisy_data_first_pass_witness :
  let st := noisy_state in
  let st' := snd (make_noisy_data st) in
  fst (make_noisy_data st) = Ok tt
  /\ (forall stem,
        files st' !! ((noisy_data_dir (self st), stem) : Path)
        = match files st !! ((raw_data_dir (self st), stem) : Path) with
          | Some ev =>
              match subsample (noise_seed (self st))
                      (noise_level (self st)) ev with
              | Some ev' => Some ev'
              | None => files st !! ((noisy_data_dir (self st), stem) : Path)
              end
          | None => files st !! ((noisy_data_dir (self st), stem) : Path)
          end)
  /\ (forall q, fst q <> noisy_data_dir (self st) ->
                files st' !! q = files st !! q).
Proof.
  apply (make_noisy_data_first_pass noisy_state).
  - vm_compute. split; discriminate.
  - reflexivity.
  - vm_compute. discriminate.
  - reflexivity.
  - vm_compute. discriminate.
  - intros stem ev H.
    change (files noisy_state)
      with ({[ example_raw_path := example_event ]} : gmap Path Event) in H.
    apply lookup_singleton_Some in H as [_ <-]. reflexivity.
Defined.

(** The pass on the concrete event leaves one noisy file of seven hits. *)
Example make_noisy_data_example :
  fst (make_noisy_data noisy_state) = Ok tt
  /\ option_map (fun ev => length (ev_x ev))
       (files (snd (make_noisy_data noisy_state))
          !! ("data/0.5_noise", "event_0")) = Some 7%nat
  /\ saved (snd (make_noisy_data noisy_state))
     = [("data/0.5_noise", "event_0")].
Proof. vm_compute. repeat split. Qed.

(* ===================================================================== *)
(** ** [prepare_data] *)
(* ===================================================================== *)

Section AcquisitionProofs.

Context {G : NumpyRandom}.
Variable download : Site -> Result unit * Site.
Variable extract : Site -> Result unit * Site.

(** X21.  When the noisy directory already has an entry, [prepare_data]
    does nothing at all: no message, no transfer, no unpacking, no
    filtering. *)
Theorem prepare_data_skips_existing (s : Site) :
  noisy_data_exists s = true ->
  prepare_data download extract s = (Ok tt, s).
Proof.
  intros H. unfold prepare_data. rewrite H. reflexivity.
Qed.

(** X22.  With nothing on disk and downloading disabled, [prepare_data]
    raises its RuntimeError after three info messages and one error
    message; it calls neither the transfer nor the unpacking nor the
    filter, and the files are as before. *)
Theorem prepare_data_aborts_without_download (s : Site) :
  noisy_data_exists s = false ->
  is_extracted s = false ->
  is_downloaded s = false ->
  _download s = false ->
  let s' := snd (prepare_data download extract s) in
  fst (prepare_data download extract s) = Raise (RuntimeError "")
  /\ files (proc s') = files (proc s)
  /\ saved (proc s') = saved (proc s)
  /\ self (proc s') = self (proc s)
  /\ errors s' = errors s ++ ["download=false, aborting!"]
  /\ logged (proc s')
     = logged (proc s)
       ++ [LogInfo ("Noisy dataset not found at "
                    +:+ noisy_data_dir (self (proc s)) +:+ ".");
           LogInfo ("Raw dataset not found at "
                    +:+ raw_data_dir (self (proc s)) +:+ ".");
           LogInfo ("Downloaded dataset not found at "
                    +:+ data_dir s +:+ "/data.tar.gz.")].
Proof.
  intros Hn He Hd Hflag. cbv zeta.
  unfold prepare_data. rewrite Hn. cbn [negb].
  unfold then_, site_info, is_extracted, is_downloaded in *.
  unfold dir_not_empty in *.
  cbn [set_proc proc add_log self files other_entries archive_exists
       _download data_dir].
  rewrite He. cbn [negb].
  cbn [set_proc proc add_log self files other_entries archive_exists
       _download data_dir].
  rewrite Hd. cbn [negb].
  cbn [set_proc proc add_log self files other_entries archive_exists
       _download data_dir].
  rewrite Hflag. cbn.
  rewrite <- !app_assoc. repeat split; reflexivity.
Qed.

(** X23.  Resuming from extracted raw data: when the raw directory has
    entries and the noisy one has none, [prepare_data] goes straight to
    the filter, without transfer or unpacking.  For a first pass over
    well-formed raw events (noise seed in numpy's range) in which some event has a non-empty
    sub-sample, it returns normally and leaves the noisy directory
    non-empty, so that calling [prepare_data] again does nothing. *)
Theorem prepare_data_resumes_and_settles (s : Site) (stem : string)
    (ev ev' : Event) :
  let st := proc s in
  noisy_data_exists s = false ->
  is_extracted s = true ->
  valid_seed (noise_seed (self st)) ->
  _raw_events (self st) = None ->
  raw_data_dir (self st) <> noisy_data_dir (self st) ->
  Qeq_bool (noise_level (self st)) 1 = false ->
  (0 <= noise_level (self st))%Q ->
  (forall stem ev, files st !! ((raw_data_dir (self st), stem) : Path)
                   = Some ev -> event_wf ev) ->
  files st !! ((raw_data_dir (self st), stem) : Path) = Some ev ->
  subsample (noise_seed (self st)) (noise_level (self st)) ev = Some ev' ->
  let s1 := snd (prepare_data download extract s) in
  prepare_data download extract s
  = at_site make_noisy_data
      (site_info ("Noisy dataset not found at "
                  +:+ noisy_data_dir (self st) +:+ ".") s)
  /\ fst (prepare_data download extract s) = Ok tt
  /\ noisy_data_exists s1 = true
  /\ prepare_data download extract s1 = (Ok tt, s1).
Proof.
  cbv zeta. intros Hn He _ Hcache Hdirs Hguard Hlevel Hwf Hraw Hsub.
  assert (Hunfold : prepare_data download extract s
                    = at_site make_noisy_data
                        (site_info ("Noisy dataset not found at "
                                    +:+ noisy_data_dir (self (proc s))
                                    +:+ ".") s)).
  { unfold prepare_data. rewrite Hn. cbn [negb].
    unfold then_, is_extracted, dir_not_empty, site_info in *.
    cbn [set_proc proc add_log self files other_entries].
    rewrite He. reflexivity. }
  split; [exact Hunfold|].
  set (st0 := add_log (LogInfo ("Noisy dataset not found at "
                                +:+ noisy_data_dir (self (proc s)) +:+ "."))
                (proc s)).
  assert (Hlook := fun stem0 =>
            first_pass_lookup st0 stem0 Hcache Hdirs Hguard Hlevel Hwf).
  destruct (first_pass_processable st0 Hcache Hdirs Hwf) as [_ Hl].
  destruct (make_noisy_data_run st0 Hguard Hlevel Hl) as (Hok & _).
  assert (Hkeep := make_noisy_data_frame st0).
  cbv zeta in Hok, Hkeep. destruct Hkeep as (Hdir & _).
  assert (Hexists : noisy_data_exists
                      (snd (prepare_data download extract s)) = true).
  { rewrite Hunfold. unfold at_site, site_info.
    cbn [set_proc proc]. fold st0.
    destruct (make_noisy_data st0) as [r st1] eqn:Hrun.
    cbn [fst snd] in *.
    unfold noisy_data_exists, dir_not_empty. cbn [set_proc proc other_entries].
    apply orb_true_iff. right.
    specialize (Hlook stem). cbn [add_log self files] in Hlook.
    cbn [st0 add_log self files] in Hlook. rewrite Hraw, Hsub in Hlook.
    assert (Hin : In ((noisy_data_dir (self st1), stem) : Path)
                     (sorted_glob (noisy_data_dir (self st1)) (files st1))).
    { apply sorted_glob_In. split; [reflexivity|].
      exists ev'. rewrite Hdir. exact Hlook. }
    destruct (sorted_glob (noisy_data_dir (self st1)) (files st1));
      [destruct Hin | reflexivity]. }
  split; [|split; [exact Hexists|]].
  - rewrite Hunfold. unfold at_site, site_info. cbn [set_proc proc].
    fold st0. destruct (make_noisy_data st0) as [r st1]. exact Hok.
  - unfold prepare_data at 1. rewrite Hexists. reflexivity.
Qed.

End AcquisitionProofs.

Lemma prepare_data_skips_existing_witness :
  prepare_data idle idle (example_site loader_state)
  = (Ok tt, example_site loader_state).
Proof.
  apply (prepare_data_skips_existing idle idle (example_site loader_state)).
  vm_compute. reflexivity.
Defined.

Lemma prepare_data_aborts_without_download_witness :
  let s := example_site
             (example_state
                (example_module 1 (4 # 5) (1 # 10) (1 # 2) "0.5_noise" 31)
                ∅ 0) in
  let s' := snd (prepare_data idle idle s) in
  fst (prepare_data idle idle s) = Raise (RuntimeError "")
  /\ files (proc s') = files (proc s)
  /\ saved (proc s') = saved (proc s)
  /\ self (proc s') = self (proc s)
  /\ errors s' = errors s ++ ["download=false, aborting!"]
  /\ logged (proc s')
     = logged (proc s)
       ++ [LogInfo ("Noisy dataset not found at "
                    +:+ noisy_data_dir (self (proc s)) +:+ ".");
           LogInfo ("Raw dataset not found at "
                    +:+ raw_data_dir (self (proc s)) +:+ ".");
           LogInfo ("Downloaded dataset not found at "
                    +:+ data_dir s +:+ "/data.tar.gz.")].
Proof.
  apply (prepare_data_aborts_without_download idle idle
           (example_site
              (example_state
                 (example_module 1 (4 # 5) (1 # 10) (1 # 2) "0.5_noise" 31)
                 ∅ 0)));
    vm_compute; reflexivity.
Defined.

Lemma prepare_data_resumes_and_settles_witness :
  let s := example_site noisy_state in
  let s1 := snd (prepare_data idle idle s) in
  prepare_data idle idle s
  = at_site make_noisy_data
      (site_info ("Noisy dataset not found at "
                  +:+ noisy_data_dir (self (proc s)) +:+ ".") s)
  /\ fst (prepare_data idle idle s) = Ok tt
  /\ noisy_data_exists s1 = true
  /\ prepare_data idle idle s1 = (Ok tt, s1).
Proof.
  apply (prepare_data_resumes_and_settles idle idle
           (example_site noisy_state) "event_0" example_event
           (match subsample 31 (1 # 2) example_event with
            | Some e => e
            | None => example_event
            end)).
  - vm_compute. reflexivity.
  - vm_compute. reflexivity.
  - vm_compute. split; discriminate.
  - reflexivity.
  - vm_compute. discriminate.
  - reflexivity.
  - vm_compute. discriminate.
  - intros stem ev H.
    change (files (proc (example_site noisy_state)))
      with ({[ example_raw_path := example_event ]} : gmap Path Event) in H.
    apply lookup_singleton_Some in H as [_ <-]. reflexivity.
  - vm_compute. reflexivity.
  - vm_compute. reflexivity.
Defined.
